(** * image-uploader-mvp: the upload pipeline of [main.go]

    A shallow embedding of [uploadHandler], [processFile], [saveFile],
    [generateThumbnail], [saveToDatabase], [getRecentImages] and
    [viewHandler], together with the library routines they call
    ([crypto/sha256], [encoding/hex], [path/filepath],
    [net/http.DetectContentType], the bounds computed by
    [imaging.Thumbnail], the format chosen by [imaging.Save]), and the
    properties of the pipeline.

    Conventions.  The outside world is a record [World]: the two storage
    directories, the table [images] with its id sequence, and a trace of
    the operations performed.  What the environment decides during one
    call (which operation fails, what time the database stamps on a row)
    is a record [Env] given to the call.  The image decoders are a type
    class [ImageCodec]; pixel data is not modelled.  A function of
    [main.go] that returns early is written in the monad [M], whose
    [Return] carries the [gin.H] and the status code. *)

From Stdlib Require Import ZArith List Strings.String Strings.Ascii Strings.Byte Lia Bool Sorting.Sorted Permutation.
From stdpp Require Import gmap strings list fin_maps.
Import ListNotations.

Local Open Scope string_scope.
Local Open Scope list_scope.
Local Open Scope Z_scope.

(** ** crypto/sha256 (FIPS 180-4), on 32-bit words held in [Z] *)

Module SHA256.

Definition w32 (x : Z) : Z := x mod 2 ^ 32.

Definition rotr (n x : Z) : Z :=
  Z.lor (Z.shiftr x n) (w32 (Z.shiftl x (32 - n))).

Definition Ch (x y z : Z) : Z :=
  Z.lxor (Z.land x y) (Z.land (w32 (Z.lnot x)) z).

Definition Maj (x y z : Z) : Z :=
  Z.lxor (Z.lxor (Z.land x y) (Z.land x z)) (Z.land y z).

Definition Sigma0 (x : Z) : Z := Z.lxor (Z.lxor (rotr 2 x) (rotr 13 x)) (rotr 22 x).
Definition Sigma1 (x : Z) : Z := Z.lxor (Z.lxor (rotr 6 x) (rotr 11 x)) (rotr 25 x).
Definition sigma0 (x : Z) : Z := Z.lxor (Z.lxor (rotr 7 x) (rotr 18 x)) (Z.shiftr x 3).
Definition sigma1 (x : Z) : Z := Z.lxor (Z.lxor (rotr 17 x) (rotr 19 x)) (Z.shiftr x 10).

(** The round constants, eight rounds to a row. *)
Definition K0 : list Z :=
  [ 0x428a2f98; 0x71374491; 0xb5c0fbcf; 0xe9b5dba5;
    0x3956c25b; 0x59f111f1; 0x923f82a4; 0xab1c5ed5 ].

Definition K1 : list Z :=
  [ 0xd807aa98; 0x12835b01; 0x243185be; 0x550c7dc3;
    0x72be5d74; 0x80deb1fe; 0x9bdc06a7; 0xc19bf174 ].

Definition K2 : list Z :=
  [ 0xe49b69c1; 0xefbe4786; 0x0fc19dc6; 0x240ca1cc;
    0x2de92c6f; 0x4a7484aa; 0x5cb0a9dc; 0x76f988da ].

Definition K3 : list Z :=
  [ 0x983e5152; 0xa831c66d; 0xb00327c8; 0xbf597fc7;
    0xc6e00bf3; 0xd5a79147; 0x06ca6351; 0x14292967 ].

Definition K4 : list Z :=
  [ 0x27b70a85; 0x2e1b2138; 0x4d2c6dfc; 0x53380d13;
    0x650a7354; 0x766a0abb; 0x81c2c92e; 0x92722c85 ].

Definition K5 : list Z :=
  [ 0xa2bfe8a1; 0xa81a664b; 0xc24b8b70; 0xc76c51a3;
    0xd192e819; 0xd6990624; 0xf40e3585; 0x106aa070 ].

Definition K6 : list Z :=
  [ 0x19a4c116; 0x1e376c08; 0x2748774c; 0x34b0bcb5;
    0x391c0cb3; 0x4ed8aa4a; 0x5b9cca4f; 0x682e6ff3 ].

Definition K7 : list Z :=
  [ 0x748f82ee; 0x78a5636f; 0x84c87814; 0x8cc70208;
    0x90befffa; 0xa4506ceb; 0xbef9a3f7; 0xc67178f2 ].

Definition K : list Z := K0 ++ K1 ++ K2 ++ K3 ++ K4 ++ K5 ++ K6 ++ K7.

(** The eight working registers / chaining values. *)
Record regs : Type := Regs { ra : Z; rb : Z; rc : Z; rd : Z; re : Z; rf : Z; rg : Z; rh : Z }.

Definition init : regs :=
  Regs 0x6a09e667 0xbb67ae85 0x3c6ef372 0xa54ff53a 0x510e527f 0x9b05688c 0x1f83d9ab 0x5be0cd19.

(** One round.  [win] is the sliding window W[t..t+15] of the message
    schedule: the head is consumed and W[t+16] is appended. *)
Definition round (st : regs * list Z) (k : Z) : regs * list Z :=
  let '(r, win) := st in
  let wt := nth 0 win 0 in
  let t1 := rh r + Sigma1 (re r) + Ch (re r) (rf r) (rg r) + k + wt in
  let t2 := Sigma0 (ra r) + Maj (ra r) (rb r) (rc r) in
  let wnew := sigma1 (nth 14 win 0) + nth 9 win 0 + sigma0 (nth 1 win 0) + wt in
  (Regs (w32 (t1 + t2)) (ra r) (rb r) (rc r) (w32 (rd r + t1)) (re r) (rf r) (rg r),
   tl win ++ [w32 wnew]).

Definition add_regs (x y : regs) : regs :=
  Regs (w32 (ra x + ra y)) (w32 (rb x + rb y)) (w32 (rc x + rc y)) (w32 (rd x + rd y))
       (w32 (re x + re y)) (w32 (rf x + rf y)) (w32 (rg x + rg y)) (w32 (rh x + rh y)).

(** Big-endian 32-bit words of a block of bytes. *)
Fixpoint be_words (bs : list Z) : list Z :=
  match bs with
  | b0 :: b1 :: b2 :: b3 :: rest =>
      (Z.shiftl b0 24 + Z.shiftl b1 16 + Z.shiftl b2 8 + b3) :: be_words rest
  | _ => []
  end.

Definition compress (h : regs) (block : list Z) : regs :=
  add_regs h (fst (fold_left round K (h, be_words block))).

(** The message followed by 0x80, zeros up to 56 mod 64, and the bit
    length as a 64-bit big-endian integer. *)
Definition be_bytes (n : nat) (x : Z) : list Z :=
  map (fun i => Z.shiftr x (8 * Z.of_nat i) mod 256) (rev (seq 0 n)).

Definition pad (msg : list Z) : list Z :=
  let len := Z.of_nat (length msg) in
  let zeros := Z.to_nat ((55 - len) mod 64) in
  msg ++ [0x80] ++ repeat 0 zeros ++ be_bytes 8 (8 * len).

(** Absorb the padded message 64 bytes at a time. *)
Fixpoint absorb (nblocks : nat) (h : regs) (bs : list Z) : regs :=
  match nblocks with
  | O => h
  | S n => absorb n (compress h (firstn 64 bs)) (skipn 64 bs)
  end.

Definition sum_regs (msg : list Z) : regs :=
  let p := pad msg in
  absorb (Nat.div (length p) 64) init p.

Definition word_bytes (x : Z) : list byte :=
  map (fun z => match Byte.of_N (Z.to_N z) with Some b => b | None => x00 end) (be_bytes 4 x).

(** [hash.Write] of the bytes followed by [hash.Sum(nil)]: 32 bytes. *)
Definition Sum (msg : list byte) : list byte :=
  let r := sum_regs (map (fun b => Z.of_N (Byte.to_N b)) msg) in
  word_bytes (ra r) ++ word_bytes (rb r) ++ word_bytes (rc r) ++ word_bytes (rd r) ++
  word_bytes (re r) ++ word_bytes (rf r) ++ word_bytes (rg r) ++ word_bytes (rh r).

End SHA256.

(** ** encoding/hex *)

Definition hextable : string := "0123456789abcdef".

Definition hexdigit (n : N) : ascii :=
  match String.get (N.to_nat n) hextable with
  | Some c => c
  | None => "0"%char
  end.

(** [hex.EncodeToString]: two lower-case digits per byte, high nibble first. *)
Fixpoint EncodeToString (src : list byte) : string :=
  match src with
  | [] => EmptyString
  | b :: rest =>
      String (hexdigit (N.shiftr (Byte.to_N b) 4))
        (String (hexdigit (N.land (Byte.to_N b) 15)) (EncodeToString rest))
  end.

Definition sha256_hex (content : list byte) : string :=
  EncodeToString (SHA256.Sum content).

(** ** path/filepath (Unix) *)

Definition IsPathSeparator (c : ascii) : bool := Ascii.eqb c "/".

(** The loop of [filepath.Ext]: [rpath] holds the bytes before index [i]
    in reverse, [suffix] is [path[i+1:]]. *)
Fixpoint ext_scan (rpath : list ascii) (suffix : list ascii) : list ascii :=
  match rpath with
  | [] => []
  | c :: before =>
      if IsPathSeparator c then []
      else if Ascii.eqb c "." then c :: suffix
      else ext_scan before (c :: suffix)
  end.

(** [filepath.Ext]: the suffix beginning at the final dot in the final
    element of [path]; empty if there is no dot. *)
Definition Ext (path : string) : string :=
  string_of_list_ascii (ext_scan (rev (list_ascii_of_string path)) []).

Fixpoint strip_trailing_sep (rpath : list ascii) : list ascii :=
  match rpath with
  | c :: before => if IsPathSeparator c then strip_trailing_sep before else rpath
  | [] => []
  end.

Fixpoint last_element (rpath : list ascii) (acc : list ascii) : list ascii :=
  match rpath with
  | [] => acc
  | c :: before => if IsPathSeparator c then acc else last_element before (c :: acc)
  end.

(** [filepath.Base]: the last element of [path], trailing separators
    removed; "." for the empty path, "/" for a path of separators only. *)
Definition Base (path : string) : string :=
  match path with
  | EmptyString => "."
  | _ =>
      match last_element (strip_trailing_sep (rev (list_ascii_of_string path))) [] with
      | [] => "/"
      | e => string_of_list_ascii e
      end
  end.

(** [s[:len(s)-n]] for [n <= len(s)]. *)
Definition drop_suffix (n : nat) (s : string) : string :=
  String.substring 0 (String.length s - n) s.

(** ** net/http: DetectContentType (the WHATWG sniffing table of sniff.go) *)

Module sniff.

Definition sniffLen : nat := 512.

Definition bN (b : byte) : N := Byte.to_N b.

Definition isWS (b : byte) : bool :=
  match b with
  | x09 | x0a | x0c | x0d | x20 => true
  | _ => false
  end.

Definition isTT (b : byte) : bool :=
  match b with
  | x20 | x3e => true
  | _ => false
  end.

Inductive sniffSig : Type :=
| htmlSig (h : list byte)
| maskedSig (mask pat : list byte) (skipWS : bool) (ct : string)
| exactSig (sig : list byte) (ct : string)
| mp4Sig
| textSig.

Fixpoint HasPrefix (data prefix : list byte) {struct prefix} : bool :=
  match prefix, data with
  | [], _ => true
  | p :: ps, d :: ds => N.eqb (bN p) (bN d) && HasPrefix ds ps
  | _ :: _, [] => false
  end.

Definition match_exact (sig : list byte) (ct : string) (data : list byte) : string :=
  if HasPrefix data sig then ct else "".

(** [data[i] & mask[i] == pat[i]] for every index of [pat]. *)
Fixpoint masked_eq (data mask pat : list byte) {struct pat} : bool :=
  match pat, mask, data with
  | [], _, _ => true
  | p :: ps, m :: ms, d :: ds => N.eqb (N.land (bN d) (bN m)) (bN p) && masked_eq ds ms ps
  | _ :: _, _, _ => false
  end.

Definition match_masked (mask pat : list byte) (skipWS : bool) (ct : string)
    (data : list byte) (firstNonWS : nat) : string :=
  let data := if skipWS then skipn firstNonWS data else data in
  if negb (Nat.eqb (length pat) (length mask)) then ""
  else if Nat.ltb (length data) (length pat) then ""
  else if masked_eq data mask pat then ct else "".

(** Case-insensitive comparison against the upper-case tag [h]. *)
Fixpoint html_eq (data h : list byte) {struct h} : bool :=
  match h, data with
  | [], _ => true
  | b :: hs, d :: ds =>
      let db := if N.leb 65 (bN b) && N.leb (bN b) 90 then N.land (bN d) 223 else bN d in
      N.eqb (bN b) db && html_eq ds hs
  | _ :: _, [] => false
  end.

Definition match_html (h : list byte) (data : list byte) (firstNonWS : nat) : string :=
  let data := skipn firstNonWS data in
  if Nat.ltb (length data) (length h + 1) then ""
  else if negb (html_eq data h) then ""
  else match nth_error data (length h) with
       | Some t => if isTT t then "text/html; charset=utf-8" else ""
       | None => ""
       end.

Definition mp4ftype : list byte := list_byte_of_string "ftyp".
Definition mp4 : list byte := list_byte_of_string "mp4".

Definition bytes_eqb (a b : list byte) : bool :=
  Nat.eqb (length a) (length b) && HasPrefix a b.

(** The loop [for st := 8; st < boxSize; st += 4] of [mp4Sig.match]. *)
Fixpoint mp4_loop (fuel : nat) (st boxSize : N) (data : list byte) : string :=
  match fuel with
  | O => ""
  | S fuel' =>
      if N.leb boxSize st then ""
      else if N.eqb st 12 then mp4_loop fuel' (st + 4)%N boxSize data
      else if bytes_eqb (firstn 3 (skipn (N.to_nat st) data)) mp4 then "video/mp4"
      else mp4_loop fuel' (st + 4)%N boxSize data
  end.

(** [binary.BigEndian.Uint32(data[:4])]. *)
Definition Uint32 (bs : list byte) : N :=
  fold_left (fun acc b => (acc * 256 + bN b)%N) (firstn 4 bs) 0%N.

Definition match_mp4 (data : list byte) : string :=
  if Nat.ltb (length data) 12 then ""
  else
    let boxSize := Uint32 data in
    if N.ltb (N.of_nat (length data)) boxSize || negb (N.eqb (N.modulo boxSize 4) 0) then ""
    else if negb (bytes_eqb (firstn 4 (skipn 4 data)) mp4ftype) then ""
    else mp4_loop sniffLen 8 boxSize data.

Definition is_binary_byte (b : byte) : bool :=
  let n := bN b in
  N.leb n 8 || N.eqb n 11 || (N.leb 14 n && N.leb n 26) || (N.leb 28 n && N.leb n 31).

Definition match_text (data : list byte) (firstNonWS : nat) : string :=
  if existsb is_binary_byte (skipn firstNonWS data) then "" else "text/plain; charset=utf-8".

Definition sig_match (sig : sniffSig) (data : list byte) (firstNonWS : nat) : string :=
  match sig with
  | htmlSig h => match_html h data firstNonWS
  | maskedSig mask pat skipWS ct => match_masked mask pat skipWS ct data firstNonWS
  | exactSig s ct => match_exact s ct data
  | mp4Sig => match_mp4 data
  | textSig => match_text data firstNonWS
  end.

(** [[]byte("...")] *)
Definition bytes (s : string) : list byte := list_byte_of_string s.

Definition sniffSignatures : list sniffSig :=
  [ htmlSig (bytes "<!DOCTYPE HTML"); htmlSig (bytes "<HTML"); htmlSig (bytes "<HEAD");
    htmlSig (bytes "<SCRIPT"); htmlSig (bytes "<IFRAME"); htmlSig (bytes "<H1"); htmlSig (bytes "<DIV");
    htmlSig (bytes "<FONT"); htmlSig (bytes "<TABLE"); htmlSig (bytes "<A"); htmlSig (bytes "<STYLE");
    htmlSig (bytes "<TITLE"); htmlSig (bytes "<B"); htmlSig (bytes "<BODY"); htmlSig (bytes "<BR");
    htmlSig (bytes "<P"); htmlSig (bytes "<!--");
    maskedSig [xff; xff; xff; xff; xff] (bytes "<?xml") true "text/xml; charset=utf-8";
    exactSig (bytes "%PDF-") "application/pdf";
    exactSig (bytes "%!PS-Adobe-") "application/postscript";
    (* UTF BOMs *)
    maskedSig [xff; xff; x00; x00] [xfe; xff; x00; x00] false "text/plain; charset=utf-16be";
    maskedSig [xff; xff; x00; x00] [xff; xfe; x00; x00] false "text/plain; charset=utf-16le";
    maskedSig [xff; xff; xff; x00] [xef; xbb; xbf; x00] false "text/plain; charset=utf-8";
    (* image types *)
    exactSig [x00; x00; x01; x00] "image/x-icon";
    exactSig [x00; x00; x02; x00] "image/x-icon";
    exactSig (bytes "BM") "image/bmp";
    exactSig (bytes "GIF87a") "image/gif";
    exactSig (bytes "GIF89a") "image/gif";
    maskedSig [xff; xff; xff; xff; x00; x00; x00; x00; xff; xff; xff; xff; xff; xff]
      (bytes "RIFF" ++ [x00; x00; x00; x00] ++ bytes "WEBPVP") false "image/webp";
    exactSig ([x89] ++ bytes "PNG" ++ [x0d; x0a; x1a; x0a]) "image/png";
    exactSig [xff; xd8; xff] "image/jpeg";
    (* audio and video types *)
    maskedSig [xff; xff; xff; xff] (bytes ".snd") false "audio/basic";
    maskedSig [xff; xff; xff; xff; x00; x00; x00; x00; xff; xff; xff; xff]
      (bytes "FORM" ++ [x00; x00; x00; x00] ++ bytes "AIFF") false "audio/aiff";
    maskedSig [xff; xff; xff] (bytes "ID3") false "audio/mpeg";
    maskedSig [xff; xff; xff; xff; xff] (bytes "OggS" ++ [x00]) false "application/ogg";
    maskedSig [xff; xff; xff; xff; xff; xff; xff; xff] (bytes "MThd" ++ [x00; x00; x00; x06]) false
      "audio/midi";
    maskedSig [xff; xff; xff; xff; x00; x00; x00; x00; xff; xff; xff; xff]
      (bytes "RIFF" ++ [x00; x00; x00; x00] ++ bytes "AVI ") false "video/avi";
    maskedSig [xff; xff; xff; xff; x00; x00; x00; x00; xff; xff; xff; xff]
      (bytes "RIFF" ++ [x00; x00; x00; x00] ++ bytes "WAVE") false "audio/wave";
    mp4Sig;
    exactSig [x1a; x45; xdf; xa3] "video/webm";
    (* font types *)
    maskedSig (repeat x00 34 ++ [xff; xff]) (repeat x00 34 ++ bytes "LP") false
      "application/vnd.ms-fontobject";
    exactSig [x00; x01; x00; x00] "font/ttf";
    exactSig (bytes "OTTO") "font/otf";
    exactSig (bytes "ttcf") "font/collection";
    exactSig (bytes "wOFF") "font/woff";
    exactSig (bytes "wOF2") "font/woff2";
    (* archive types *)
    exactSig [x1f; x8b; x08] "application/x-gzip";
    exactSig (bytes "PK" ++ [x03; x04]) "application/zip";
    exactSig (bytes "Rar!" ++ [x1a; x07; x00]) "application/x-rar-compressed";
    exactSig (bytes "Rar!" ++ [x1a; x07; x01; x00]) "application/x-rar-compressed";
    exactSig [x00; x61; x73; x6d] "application/wasm";
    textSig ].

Fixpoint countWS (data : list byte) : nat :=
  match data with
  | b :: rest => if isWS b then S (countWS rest) else O
  | [] => O
  end.

Fixpoint first_match (sigs : list sniffSig) (data : list byte) (firstNonWS : nat) : string :=
  match sigs with
  | [] => "application/octet-stream"
  | sig :: rest =>
      let ct := sig_match sig data firstNonWS in
      if String.eqb ct "" then first_match rest data firstNonWS else ct
  end.

Definition DetectContentType (data : list byte) : string :=
  let data := firstn sniffLen data in
  first_match sniffSignatures data (countWS data).

(** The two signatures the program accepts. *)
Definition jpeg_magic : list byte := [xff; xd8; xff].
Definition png_magic : list byte := [x89; x50; x4e; x47; x0d; x0a; x1a; x0a].

Definition png_sig : sniffSig := exactSig png_magic "image/png".
Definition jpeg_sig : sniffSig := exactSig jpeg_magic "image/jpeg".

(** The signatures tried before the PNG and JPEG ones, and after. *)
Definition sigs_before : list sniffSig := firstn 29 sniffSignatures.
Definition sigs_after : list sniffSig := skipn 31 sniffSignatures.

(** The content type a signature reports when it matches. *)
Definition sig_ct (sig : sniffSig) : string :=
  match sig with
  | htmlSig _ => "text/html; charset=utf-8"
  | maskedSig _ _ _ ct => ct
  | exactSig _ ct => ct
  | mp4Sig => "video/mp4"
  | textSig => "text/plain; charset=utf-8"
  end.

End sniff.

(** ** github.com/disintegration/imaging: the bounds of [Thumbnail]

    After the library's [tools.go] and [resize.go] (v1.6): [Thumbnail]
    is [Fill] with the [Center] anchor.  An image is represented by the
    size of its bounds, which start at the origin; pixel data and the
    resampling filter are not modelled.  The library computes the
    intermediate sizes in [float64]; here the quotients are exact. *)

Module imaging.

Record Image : Type := { Dx : Z; Dy : Z }.

(** [&image.NRGBA{}] *)
Definition emptyNRGBA : Image := {| Dx := 0; Dy := 0 |}.

(** [floor(p/q + 0.5)] for [q > 0]. *)
Definition round_div (p q : Z) : Z := (2 * p + q) / (2 * q).

Definition Resize (img : Image) (width height : Z) : Image :=
  let dstW := width in
  let dstH := height in
  if (dstW <? 0) || (dstH <? 0) then emptyNRGBA
  else if (dstW =? 0) && (dstH =? 0) then emptyNRGBA
  else
    let srcW := Dx img in
    let srcH := Dy img in
    if (srcW <=? 0) || (srcH <=? 0) then emptyNRGBA
    else
      let dstW := if dstW =? 0 then Z.max 1 (round_div (dstH * srcW) srcH) else dstW in
      let dstH := if dstH =? 0 then Z.max 1 (round_div (dstW * srcH) srcW) else dstH in
      {| Dx := dstW; Dy := dstH |}.

(** [CropAnchor(img, width, height, Center)], for [width, height >= 0]:
    the rectangle of that size centred on the image, intersected with
    the image's bounds. *)
Definition CropAnchor (img : Image) (width height : Z) : Image :=
  let x0 := Z.quot (Dx img - width) 2 in
  let y0 := Z.quot (Dy img - height) 2 in
  let bx0 := Z.max 0 x0 in
  let by0 := Z.max 0 y0 in
  let bx1 := Z.min (Dx img) (x0 + width) in
  let by1 := Z.min (Dy img) (y0 + height) in
  if (bx1 <=? bx0) || (by1 <=? by0) then emptyNRGBA
  else {| Dx := bx1 - bx0; Dy := by1 - by0 |}.

Definition cropAndResize (img : Image) (width height : Z) : Image :=
  let dstW := width in
  let dstH := height in
  let srcW := Dx img in
  let srcH := Dy img in
  let tmp :=
    if srcW * dstH <? dstW * srcH (* srcAspectRatio < dstAspectRatio *)
    then CropAnchor img srcW (Z.max 1 (round_div (srcW * dstH) dstW))
    else CropAnchor img (Z.max 1 (round_div (srcH * dstW) dstH)) srcH in
  Resize tmp dstW dstH.

Definition resizeAndCrop (img : Image) (width height : Z) : Image :=
  let dstW := width in
  let dstH := height in
  let srcW := Dx img in
  let srcH := Dy img in
  let tmp :=
    if srcW * dstH <? dstW * srcH (* srcAspectRatio < dstAspectRatio *)
    then Resize img dstW 0
    else Resize img 0 dstH in
  CropAnchor tmp dstW dstH.

Definition Fill (img : Image) (width height : Z) : Image :=
  let dstW := width in
  let dstH := height in
  if (dstW <=? 0) || (dstH <=? 0) then emptyNRGBA
  else
    let srcW := Dx img in
    let srcH := Dy img in
    if (srcW <=? 0) || (srcH <=? 0) then emptyNRGBA
    else if (srcW =? dstW) && (srcH =? dstH) then img
    else if (100 <=? srcW) && (100 <=? srcH) then cropAndResize img dstW dstH
    else resizeAndCrop img dstW dstH.

(** [Thumbnail] scales the image up or down and crops it to the
    specified width and height. *)
Definition Thumbnail (img : Image) (width height : Z) : Image :=
  Fill img width height.

Inductive Format : Type := JPEG | PNG | GIF | TIFF | BMP.

Definition lower (c : ascii) : ascii :=
  let n := nat_of_ascii c in
  if Nat.leb 65 n && Nat.leb n 90 then ascii_of_nat (n + 32) else c.

Fixpoint ToLower (s : string) : string :=
  match s with
  | EmptyString => EmptyString
  | String c rest => String (lower c) (ToLower rest)
  end.

Definition TrimDot (ext : string) : string :=
  match ext with
  | String "."%char rest => rest
  | _ => ext
  end.

Definition formatExts : list (string * Format) :=
  [ ("jpg", JPEG); ("jpeg", JPEG); ("png", PNG); ("gif", GIF);
    ("tif", TIFF); ("tiff", TIFF); ("bmp", BMP) ].

Fixpoint assoc (k : string) (l : list (string * Format)) : option Format :=
  match l with
  | [] => None
  | (k', v) :: rest => if String.eqb k k' then Some v else assoc k rest
  end.

Definition FormatFromExtension (ext : string) : option Format :=
  assoc (ToLower (TrimDot ext)) formatExts.

Definition FormatFromFilename (filename : string) : option Format :=
  FormatFromExtension (Ext filename).

End imaging.

(** ** The program's data *)

Definition uploadDir : string := "./image".
Definition thumbnailDir : string := "./thumb".
Definition maxUploadSize : Z := 40 * 1024 * 1024.

Definition StatusOK : Z := 200.
Definition StatusBadRequest : Z := 400.
Definition StatusConflict : Z := 409.
Definition StatusInternalServerError : Z := 500.

(** [multipart.FileHeader]: the name the client gave, the size the
    multipart parser recorded, and the bytes of the part. *)
Record FileHeader : Type := {
  Filename : string;
  Size : Z;
  content : list byte
}.

(** The parser sets [Size] to the number of bytes of the part. *)
Definition parsed (file : FileHeader) : Prop :=
  Size file = Z.of_nat (length (content file)).

(** A row of the table [images] (README: [id SERIAL PRIMARY KEY],
    [sha256sum CHAR(64) NOT NULL UNIQUE],
    [upload_date ... DEFAULT CURRENT_TIMESTAMP]). *)
Record Row : Type := {
  id : Z;
  filename : string;
  thumbnail_filename : string;
  width : Z;
  height : Z;
  sha256sum : string;
  upload_date : Z
}.

(** A file of [./thumb]: an image encoded in some format, or what is
    left of an encoding that failed half-way. *)
Inductive ThumbFile : Type :=
| Encoded (f : imaging.Format) (img : imaging.Image)
| Truncated.

(** Operations on the outside world, in the order performed. *)
Inductive Event : Type :=
| UploadOpen | UploadRead | UploadSeek | UploadCopy | UploadClose
| DbQuery (sha : string)
| DbExec (sha : string)
| FsCreate (dir name : string)
| FsOpen (dir name : string).

(** The two storage directories (keyed by the file's name inside the
    directory: every name the program passes to [filepath.Join] is a
    single path element), the table, its id sequence, and the trace of
    operations. *)
Record World : Type := {
  image_dir : gmap string (list byte);
  thumb_dir : gmap string ThumbFile;
  images : list Row;
  images_id_seq : Z;
  trace : list Event
}.

Definition log (e : Event) (w : World) : World :=
  {| image_dir := image_dir w; thumb_dir := thumb_dir w; images := images w;
     images_id_seq := images_id_seq w; trace := trace w ++ [e] |}.

Definition write_image (name : string) (data : list byte) (w : World) : World :=
  {| image_dir := <[name := data]> (image_dir w); thumb_dir := thumb_dir w;
     images := images w; images_id_seq := images_id_seq w; trace := trace w |}.

Definition write_thumb (name : string) (t : ThumbFile) (w : World) : World :=
  {| image_dir := image_dir w; thumb_dir := <[name := t]> (thumb_dir w);
     images := images w; images_id_seq := images_id_seq w; trace := trace w |}.

Inductive SaveFault : Type := CreateFails | EncodeFails.

(** What the environment does during one call of [processFile]: which
    operations fail, and the time the database stamps on an insert. *)
Record Env : Type := {
  open_err : option string;        (* file.Open *)
  read_err : bool;                 (* src.Read, other than EOF *)
  hash_err : bool;                 (* io.Copy(hash, src) *)
  query_err : bool;                (* db.QueryRow(...).Scan *)
  create_err : bool;               (* os.Create in saveFile *)
  write_err : option nat;          (* io.Copy(dst, file) fails after n bytes *)
  imaging_open_err : bool;         (* os.Open inside imaging.Open *)
  imaging_save_err : option SaveFault;
  reopen_err : bool;               (* os.Open in saveToDatabase *)
  exec_err : bool;                 (* db.Exec, other than the UNIQUE constraint *)
  now : Z                          (* CURRENT_TIMESTAMP *)
}.

(** [image.Decode] (as called by [imaging.Open]) and [image.DecodeConfig]
    with the registered formats. *)
Class ImageCodec : Type := {
  image_Decode : list byte -> option imaging.Image;
  image_DecodeConfig : list byte -> option (Z * Z)
}.

(** Go's [error]: [None] is [nil]. *)
Definition error : Type := option string.

(** [gin.H] with string values. *)
Abbreviation gin_H := (gmap string string).

(** ** Early return *)

Inductive Outcome (A : Type) : Type :=
| Continue (a : A)
| Return (h : gin_H) (statusCode : Z).
Arguments Continue {A} a.
Arguments Return {A} h statusCode.

Definition M (A : Type) : Type := World -> Outcome A * World.

Definition ret {A} (a : A) : M A := fun w => (Continue a, w).

Definition bind {A B} (m : M A) (k : A -> M B) : M B :=
  fun w =>
    match m w with
    | (Continue a, w') => k a w'
    | (Return h c, w') => (Return h c, w')
    end.

Definition return_ {A} (h : gin_H) (statusCode : Z) : M A := fun w => (Return h statusCode, w).

Definition emit (e : Event) : M unit := fun w => (Continue tt, log e w).

Notation "'let*' x ':=' m 'in' k" := (bind m (fun x => k))
  (at level 10, x name, m at level 100, k at level 200).
Notation "'do' m 'then' k" := (bind m (fun _ => k))
  (at level 10, m at level 100, k at level 200).

(** [defer src.Close()]: the stream is closed when the function returns. *)
Definition closing {A} (m : M A) : M A :=
  fun w =>
    match m w with
    | (Continue a, w') => (Continue a, w')
    | (Return h c, w') => (Return h c, log UploadClose w')
    end.

(** ** The database *)

Definition has_digest (sha : string) (rows : list Row) : bool :=
  existsb (fun r => String.eqb (sha256sum r) sha) rows.

(** [SELECT EXISTS(SELECT 1 FROM images WHERE sha256sum = $1)] *)
Definition db_exists (sha : string) (env : Env) (w : World) : (bool * error) * World :=
  let w := log (DbQuery sha) w in
  if query_err env then ((false, Some "query failed"), w)
  else ((has_digest sha (images w), None), w).

(** [INSERT INTO images (filename, thumbnail_filename, width, height,
    sha256sum) VALUES (...)]: the id is drawn from the sequence (which
    is not rolled back), the UNIQUE constraint on [sha256sum] is checked,
    and the row is stamped with the current time. *)
Definition db_insert (fname tname : string) (wd ht : Z) (sha : string) (env : Env)
    (w : World) : error * World :=
  let w := log (DbExec sha) w in
  if exec_err env then (Some "exec failed", w)
  else
    let newid := images_id_seq w + 1 in
    if has_digest sha (images w) then
      (Some "duplicate key value violates unique constraint",
       {| image_dir := image_dir w; thumb_dir := thumb_dir w; images := images w;
          images_id_seq := newid; trace := trace w |})
    else
      (None,
       {| image_dir := image_dir w; thumb_dir := thumb_dir w;
          images := images w ++
            [ {| id := newid; filename := fname; thumbnail_filename := tname;
                 width := wd; height := ht; sha256sum := sha; upload_date := now env |} ];
          images_id_seq := newid; trace := trace w |}).

(** ** main.go *)

(** [saveFile], lines 189-198. *)
Definition saveFile (file : list byte) (fname : string) (env : Env) (w : World) : error * World :=
  let w := log (FsCreate uploadDir fname) w in
  if create_err env then (Some "create failed", w)
  else
    let w := log UploadCopy w in
    match write_err env with
    | Some n => (Some "write failed", write_image fname (firstn n file) w)
    | None => (None, write_image fname file w)
    end.

(** [imaging.Save]: the format is chosen by the extension of the name. *)
Definition imaging_Save (img : imaging.Image) (tname : string) (env : Env) (w : World)
    : error * World :=
  match imaging.FormatFromFilename tname with
  | None => (Some "imaging: unsupported image format", w)
  | Some f =>
      let w := log (FsCreate thumbnailDir tname) w in
      match imaging_save_err env with
      | Some CreateFails => (Some "create failed", w)
      | Some EncodeFails => (Some "encode failed", write_thumb tname Truncated w)
      | None => (None, write_thumb tname (Encoded f img) w)
      end
  end.

(** The name computed on lines 208-209. *)
Definition thumbnail_name (fname : string) : string :=
  let thumbnailFilename := Base fname in
  String.append
    (drop_suffix (String.length (Ext thumbnailFilename)) thumbnailFilename) ".jpg".

(** [generateThumbnail], lines 200-216. *)
Definition generateThumbnail `{ImageCodec} (fname : string) (env : Env) (w : World)
    : (string * error) * World :=
  let w := log (FsOpen uploadDir fname) w in
  match (if imaging_open_err env then None else image_dir w !! fname) with
  | None => (("", Some "open failed"), w)
  | Some data =>
      match image_Decode data with
      | None => (("", Some "image: unknown format"), w)
      | Some src =>
          let thumbnail := imaging.Thumbnail src 120 120 in
          let thumbnailFilename := thumbnail_name fname in
          match imaging_Save thumbnail thumbnailFilename env w with
          | (Some e, w') => (("", Some e), w')
          | (None, w') => ((thumbnailFilename, None), w')
          end
      end
  end.

(** [saveToDatabase], lines 218-233. *)
Definition saveToDatabase `{ImageCodec} (fname thumbnailFilename sha : string) (env : Env)
    (w : World) : error * World :=
  let w := log (FsOpen uploadDir fname) w in
  match (if reopen_err env then None else image_dir w !! fname) with
  | None => (Some "open failed", w)
  | Some img =>
      match image_DecodeConfig img with
      | None => (Some "image: unknown format", w)
      | Some (config_Width, config_Height) =>
          db_insert fname thumbnailFilename config_Width config_Height sha env w
      end
  end.

(** [src.Read(buff)] into the zeroed 512-byte buffer: the first bytes of
    the stream, or [io.EOF] when there is none. *)
Definition read_buff (data : list byte) : list byte :=
  firstn 512 data ++ repeat x00 (512 - length (firstn 512 data)).

Definition lift {A} (f : World -> A * World) : M A :=
  fun w => let '(a, w') := f w in (Continue a, w').

(** [processFile], lines 133-168: up to and including the duplicate
    check; yields the digest. *)
Definition processFile_check (file : FileHeader) (env : Env) : M string :=
  if Size file >? maxUploadSize then
    return_ {[ "error" := "File too large" ]} StatusBadRequest
  else
    do emit UploadOpen then
    match open_err env with
    | Some e => return_ {[ "error" := e ]} StatusInternalServerError
    | None =>
        closing (
          do emit UploadRead then
          do (if read_err env || Nat.eqb (length (content file)) 0 then
                return_ {[ "error" := "Failed to read file" ]} StatusInternalServerError
              else ret tt) then
          let buff := read_buff (content file) in
          let filetype := sniff.DetectContentType buff in
          do (if negb (String.eqb filetype "image/jpeg") && negb (String.eqb filetype "image/png")
              then return_ {[ "error" := "File type not allowed. Only JPG and PNG are allowed." ]}
                     StatusBadRequest
              else ret tt) then
          do emit UploadSeek then
          do emit UploadCopy then
          do (if hash_err env then
                return_ {[ "error" := "Failed to generate SHA-256" ]} StatusInternalServerError
              else ret tt) then
          let sha := EncodeToString (SHA256.Sum (content file)) in
          let* r := lift (db_exists sha env) in
          match r with
          | (_, Some _) => return_ {[ "error" := "Database error" ]} StatusInternalServerError
          | (true, None) => return_ {[ "error" := "File already exists" ]} StatusConflict
          | (false, None) => ret sha
          end)
    end.

(** [processFile], lines 170-186: store the original, derive the
    thumbnail, record the metadata. *)
Definition processFile_store `{ImageCodec} (file : FileHeader) (env : Env) (sha : string)
    : M unit :=
  closing (
    do emit UploadSeek then
    let fname := String.append sha (Ext (Filename file)) in
    let* e := lift (saveFile (content file) fname env) in
    do (match e with
        | Some _ => return_ {[ "error" := "Failed to save file" ]} StatusInternalServerError
        | None => ret tt
        end) then
    let* t := lift (generateThumbnail fname env) in
    let thumbnailFilename := fst t in
    do (match snd t with
        | Some _ =>
            return_ {[ "error" := "Failed to generate thumbnail" ]} StatusInternalServerError
        | None => ret tt
        end) then
    let* e := lift (saveToDatabase fname thumbnailFilename sha env) in
    do (match e with
        | Some _ => return_ {[ "error" := "Failed to save to database" ]} StatusInternalServerError
        | None => ret tt
        end) then
    return_ (<[ "sha256sum" := sha ]> {[ "message" := "File uploaded successfully" ]}) StatusOK).

(** The result of a function whose every path returns. *)
Definition run (m : M unit) (w : World) : (gin_H * Z) * World :=
  match m w with
  | (Return h c, w') => ((h, c), w')
  | (Continue _, w') => ((∅, 0), w')
  end.

(** [processFile], lines 132-187. *)
Definition processFile `{ImageCodec} (file : FileHeader) (env : Env) (w : World)
    : (gin_H * Z) * World :=
  run (let* sha := processFile_check file env in processFile_store file env sha) w.

(** [c.JSON(code, obj)]: the status and the value serialised as the body. *)
Inductive Body : Type :=
| JSONObject (h : gin_H)
| JSONArray (l : list gin_H).

Record Response : Type := { status : Z; body : Body }.

(** The loop of [uploadHandler], lines 118-127; [i] counts the files
    processed so far and [envs i] is the environment of the next one. *)
Fixpoint upload_loop `{ImageCodec} (files : list FileHeader) (i : nat) (envs : nat -> Env)
    (responses : list gin_H) (w : World) : Response * World :=
  match files with
  | [] => ({| status := StatusOK; body := JSONArray responses |}, w)
  | file :: rest =>
      let '((response, statusCode), w') := processFile file (envs i) w in
      let response := <[ "filename" := Filename file ]> response in
      let responses := responses ++ [response] in
      if negb (statusCode =? StatusOK) then
        ({| status := statusCode; body := JSONArray responses |}, w')
      else upload_loop rest (S i) envs responses w'
  end.

(** [uploadHandler], lines 107-130.  The request is the outcome of
    [c.MultipartForm()]: an error, or the map [form.File]. *)
Definition uploadHandler `{ImageCodec} (form : string + gmap string (list FileHeader))
    (envs : nat -> Env) (w : World) : Response * World :=
  match form with
  | inl err => ({| status := StatusBadRequest; body := JSONObject {[ "error" := err ]} |}, w)
  | inr form_File =>
      let files := default [] (form_File !! "file") in
      upload_loop files 0%nat envs [] w
  end.

(** [viewHandler]'s record. *)
Module ImageInfo.

Record t : Type := {
  ID : Z;
  Filename : string;
  ThumbnailFilename : string;
  Width : Z;
  Height : Z;
  SHA256Sum : string;
  UploadDate : Z;   (* the timestamp; its rendering as text is not modelled *)
  ThumbnailPath : string;
  ImagePath : string
}.

End ImageInfo.

(** What may fail in [getRecentImages]: [db.Query], [rows.Scan] at some
    row, [rows.Err]. *)
Record QueryEnv : Type := {
  rows_query_err : bool;
  rows_scan_err : option nat;
  rows_err : bool
}.

(** [rows.Scan] and lines 276-277; the stored names are single path
    elements, for which [filepath.Join(dir, name)] is [dir/name]. *)
Definition scan (r : Row) : ImageInfo.t :=
  {| ImageInfo.ID := id r;
     ImageInfo.Filename := filename r;
     ImageInfo.ThumbnailFilename := thumbnail_filename r;
     ImageInfo.Width := width r;
     ImageInfo.Height := height r;
     ImageInfo.SHA256Sum := sha256sum r;
     ImageInfo.UploadDate := upload_date r;
     ImageInfo.ThumbnailPath := String.append "/thumb/" (thumbnail_filename r);
     ImageInfo.ImagePath := String.append "/image/" (filename r) |}.

(** [getRecentImages], lines 247-286.  The query orders by [upload_date]
    only, so the order the engine gives rows of equal date is its own:
    [order] is the engine's ordering of the table.  A negative LIMIT is
    an error of the engine. *)
Definition getRecentImages (order : list Row -> list Row) (limit : Z) (qenv : QueryEnv)
    (w : World) : list ImageInfo.t * error :=
  if rows_query_err qenv || (limit <? 0) then ([], Some "query failed")
  else
    let rows := firstn (Z.to_nat limit) (order (images w)) in
    match rows_scan_err qenv with
    | Some i =>
        if Nat.ltb i (length rows) then ([], Some "scan failed")
        else if rows_err qenv then ([], Some "rows failed")
        else (map scan rows, None)
    | None =>
        if rows_err qenv then ([], Some "rows failed")
        else (map scan rows, None)
    end.

(** What [ORDER BY upload_date DESC] promises of the engine's ordering. *)
Definition newer_first (a b : Row) : Prop := upload_date b <= upload_date a.

Definition orders_by_upload_date_desc (order : list Row -> list Row) : Prop :=
  forall rows, Permutation (order rows) rows /\ StronglySorted newer_first (order rows).

(** [viewHandler], lines 235-245: the status and the records handed to
    the template. *)
Definition viewHandler (order : list Row -> list Row) (qenv : QueryEnv) (w : World)
    : Z * list ImageInfo.t :=
  match getRecentImages order 100 qenv w with
  | (_, Some _) => (StatusInternalServerError, [])
  | (found, None) => (StatusOK, found)
  end.

(** ** Interleavings and batches *)



(** The world after [files] have all been processed in order, the first
    of them in environment [envs i]. *)
Fixpoint after_all `{ImageCodec} (files : list FileHeader) (i : nat) (envs : nat -> Env)
    (w : World) : World :=
  match files with
  | [] => w
  | file :: rest => after_all rest (S i) envs (snd (processFile file (envs i) w))
  end.

(** The result for the file at index [k] when those before it have been
    processed. *)
Definition result_at `{ImageCodec} (files : list FileHeader) (i : nat) (envs : nat -> Env)
    (w : World) (k : nat) : option (gin_H * Z) :=
  match files !! k with
  | Some file => Some (fst (processFile file (envs (i + k)%nat) (after_all (take k files) i envs w)))
  | None => None
  end.

Definition status_at `{ImageCodec} (files : list FileHeader) (i : nat) (envs : nat -> Env)
    (w : World) (k : nat) : Z :=
  match result_at files i envs w k with
  | Some r => snd r
  | None => StatusOK
  end.

(** The objects of the response for [files] processed in order. *)
Fixpoint responses `{ImageCodec} (files : list FileHeader) (i : nat) (envs : nat -> Env)
    (w : World) : list gin_H :=
  match files with
  | [] => []
  | file :: rest =>
      let r := processFile file (envs i) w in
      <[ "filename" := Filename file ]> (fst (fst r)) :: responses rest (S i) envs (snd r)
  end.

(** An object of the response reporting success, or failure. *)
Definition success_object (h : gin_H) : Prop :=
  h !! "message" = Some "File uploaded successfully" /\
  is_Some (h !! "sha256sum") /\ h !! "error" = None.

Definition failure_object (h : gin_H) : Prop :=
  is_Some (h !! "error") /\ h !! "message" = None /\ h !! "sha256sum" = None.

(** An engine that keeps rows of equal date in insertion order: stable
    insertion sort, newest first. *)
Fixpoint insert_by_date (r : Row) (sorted : list Row) : list Row :=
  match sorted with
  | [] => [r]
  | r' :: rest =>
      if upload_date r' <=? upload_date r then r :: sorted
      else r' :: insert_by_date r rest
  end.

Definition stable_order (rows : list Row) : list Row :=
  fold_right insert_by_date [] rows.

(** ** Concrete inputs

    A stand-in for the registered decoders that reads the size of an
    image from its header only: the IHDR chunk of a PNG, the first
    SOF0/SOF1/SOF2 segment of a JPEG. *)

Definition be16 (hi lo : byte) : Z := Z.of_N (sniff.bN hi) * 256 + Z.of_N (sniff.bN lo).

Definition be32 (b3 b2 b1 b0 : byte) : Z := be16 b3 b2 * 65536 + be16 b1 b0.

Definition png_size (data : list byte) : option (Z * Z) :=
  match data with
  | x89 :: x50 :: x4e :: x47 :: x0d :: x0a :: x1a :: x0a ::
    _ :: _ :: _ :: _ :: x49 :: x48 :: x44 :: x52 ::
    w3 :: w2 :: w1 :: w0 :: h3 :: h2 :: h1 :: h0 :: _ =>
      Some (be32 w3 w2 w1 w0, be32 h3 h2 h1 h0)
  | _ => None
  end.

Fixpoint jpeg_segments (fuel : nat) (data : list byte) : option (Z * Z) :=
  match fuel with
  | O => None
  | S fuel' =>
      match data with
      | xff :: m :: l1 :: l0 :: rest =>
          match m with
          | xc0 | xc1 | xc2 =>
              match rest with
              | _ :: h1 :: h0 :: w1 :: w0 :: _ => Some (be16 w1 w0, be16 h1 h0)
              | _ => None
              end
          | _ => jpeg_segments fuel' (skipn (Z.to_nat (be16 l1 l0 - 2)) rest)
          end
      | _ => None
      end
  end.

Definition jpeg_size (data : list byte) : option (Z * Z) :=
  match data with
  | xff :: xd8 :: rest => jpeg_segments (length rest) rest
  | _ => None
  end.

Definition header_size (data : list byte) : option (Z * Z) :=
  match png_size data with
  | Some s => Some s
  | None => jpeg_size data
  end.

Definition header_codec : ImageCodec :=
  {| image_Decode := fun data =>
       match header_size data with
       | Some (w, h) => Some {| imaging.Dx := w; imaging.Dy := h |}
       | None => None
       end;
     image_DecodeConfig := header_size |}.

(** The start of a 10x10 baseline JPEG: SOI, APP0 (JFIF), SOF0. *)
Definition jpeg10 : list byte :=
  [ xff; xd8;
    xff; xe0; x00; x10; x4a; x46; x49; x46; x00; x01; x01; x00; x00; x01; x00; x01; x00; x00;
    xff; xc0; x00; x0b; x08; x00; x0a; x00; x0a; x01; x01; x11; x00 ].

(** The signature and IHDR chunk of a 300x200 PNG. *)
Definition png300 : list byte :=
  [ x89; x50; x4e; x47; x0d; x0a; x1a; x0a;
    x00; x00; x00; x0d; x49; x48; x44; x52;
    x00; x00; x01; x2c; x00; x00; x00; xc8; x08; x02; x00; x00; x00 ].

Definition upload (name : string) (data : list byte) : FileHeader :=
  {| Filename := name; Size := Z.of_nat (length data); content := data |}.

(** No operation fails; the database clock reads [t]. *)
Definition calm (t : Z) : Env :=
  {| open_err := None; read_err := false; hash_err := false; query_err := false;
     create_err := false; write_err := None; imaging_open_err := false;
     imaging_save_err := None; reopen_err := false; exec_err := false; now := t |}.

Definition empty_world : World :=
  {| image_dir := ∅; thumb_dir := ∅; images := []; images_id_seq := 0; trace := [] |}.



Definition calm_query : QueryEnv :=
  {| rows_query_err := false; rows_scan_err := None; rows_err := false |}.

Definition cat : FileHeader := upload "cat.jpg" jpeg10.
Definition cat_png : FileHeader := upload "cat.png" jpeg10.
Definition chart : FileHeader := upload "chart.png" png300.
Definition notes : FileHeader := upload "notes.jpg" (list_byte_of_string "hello, world").
Definition nothing : FileHeader := upload "empty.png" [].

(** A header announcing one byte more than the limit. *)
Definition huge : FileHeader :=
  {| Filename := "huge.png"; Size := maxUploadSize + 1;
     content := repeat x00 (Z.to_nat (maxUploadSize + 1)) |}.


(** The world after [cat] was uploaded at time 7. *)
Definition after_cat : World := snd (@processFile header_codec cat (calm 7) empty_world).

(** The world after [cat] and [chart] were uploaded, both stamped 7. *)
Definition after_cat_and_chart : World :=
  @after_all header_codec [cat; chart] 0 (fun _ => calm 7) empty_world.

(** ** Vocabulary of the properties *)

(** Same storage and table; the traces may differ. *)
Definition same_stores (w w' : World) : Prop :=
  image_dir w' = image_dir w /\ thumb_dir w' = thumb_dir w /\
  images w' = images w /\ images_id_seq w' = images_id_seq w.

(** The test of lines 148-149 on the bytes of an upload. *)
Definition accepted (data : list byte) : bool :=
  let filetype := sniff.DetectContentType (read_buff data) in
  String.eqb filetype "image/jpeg" || String.eqb filetype "image/png".

(** The content type found on line 148, when the stream can be opened
    and read (lines 137-147). *)
Definition sniffed (file : FileHeader) (env : Env) : option string :=
  match open_err env with
  | Some _ => None
  | None =>
      if read_err env || Nat.eqb (length (content file)) 0 then None
      else Some (sniff.DetectContentType (read_buff (content file)))
  end.

Definition failure (msg : string) : gin_H := {[ "error" := msg ]}.


(** The row an insert adds. *)
Definition new_row (fname tname : string) (wd ht : Z) (sha : string) (env : Env) (w : World)
    : Row :=
  {| id := images_id_seq w + 1; filename := fname; thumbnail_filename := tname;
     width := wd; height := ht; sha256sum := sha; upload_date := now env |}.

(** No two rows of the table carry the same digest. *)
Definition unique_digests (w : World) : Prop := NoDup (map sha256sum (images w)).




(** * Properties *)

Arguments sniff.DetectContentType : simpl never.
Arguments SHA256.Sum : simpl never.
Arguments EncodeToString : simpl never.
Arguments read_buff : simpl never.
Arguments Ext : simpl never.
Arguments Base : simpl never.
Arguments thumbnail_name : simpl never.
Arguments imaging.Thumbnail : simpl never.
Arguments imaging.FormatFromFilename : simpl never.
Arguments has_digest : simpl never.
Arguments maxUploadSize : simpl never.

Lemma processFile_check_eq (file : FileHeader) (env : Env) (w : World) :
  processFile_check file env w =
  if Size file >? maxUploadSize then
    (Return {[ "error" := "File too large" ]} StatusBadRequest, w)
  else
    let w1 := log UploadOpen w in
    match open_err env with
    | Some e => (Return {[ "error" := e ]} StatusInternalServerError, w1)
    | None =>
        let w2 := log UploadRead w1 in
        if read_err env || Nat.eqb (length (content file)) 0 then
          (Return {[ "error" := "Failed to read file" ]} StatusInternalServerError,
           log UploadClose w2)
        else if negb (accepted (content file)) then
          (Return {[ "error" := "File type not allowed. Only JPG and PNG are allowed." ]}
             StatusBadRequest, log UploadClose w2)
        else
          let w4 := log UploadCopy (log UploadSeek w2) in
          if hash_err env then
            (Return {[ "error" := "Failed to generate SHA-256" ]} StatusInternalServerError,
             log UploadClose w4)
          else
            let sha := sha256_hex (content file) in
            let w5 := log (DbQuery sha) w4 in
            if query_err env then
              (Return {[ "error" := "Database error" ]} StatusInternalServerError,
               log UploadClose w5)
            else if has_digest sha (images w) then
              (Return {[ "error" := "File already exists" ]} StatusConflict, log UploadClose w5)
            else (Continue sha, w5)
    end.
Proof.
  unfold processFile_check, accepted, sha256_hex.
  destruct (Size file >? maxUploadSize); [reflexivity|].
  unfold bind, closing, emit, return_, ret, lift, db_exists. cbn -[String.eqb].
  destruct (open_err env); [reflexivity|].
  destruct (read_err env || _); [reflexivity|]. cbn -[String.eqb].
  rewrite negb_orb.
  destruct (negb _ && negb _); [reflexivity|]. cbn -[String.eqb].
  destruct (hash_err env); [reflexivity|]. cbn -[String.eqb].
  destruct (query_err env); [reflexivity|]. cbn -[String.eqb].
  destruct (has_digest _ _); reflexivity.
Qed.

(** ** Strings as lists of characters *)





(** ** filepath.Ext and filepath.Base *)













(** ** The digest *)








(** ** imaging.Thumbnail into the 120x120 box *)








(** ** The stages of the pipeline *)


Lemma generateThumbnail_frame `{ImageCodec} (fname : string) (env : Env) (w w' : World)
    (r : string * error) :
  generateThumbnail fname env w = (r, w') ->
  image_dir w' = image_dir w /\ images w' = images w /\ images_id_seq w' = images_id_seq w.
Proof.
  unfold generateThumbnail, imaging_Save. cbn zeta.
  destruct (imaging_open_err env); [by intros [= <- <-]|].
  change (image_dir (log (FsOpen uploadDir fname) w)) with (image_dir w).
  destruct (image_dir w !! fname) as [data|]; [|by intros [= <- <-]].
  destruct (image_Decode data) as [src|]; [|by intros [= <- <-]].
  destruct (imaging.FormatFromFilename _); [|by intros [= <- <-]].
  destruct (imaging_save_err env) as [[]|]; by intros [= <- <-].
Qed.

Lemma saveToDatabase_ok `{ImageCodec} (fname tname sha : string) (env : Env) (w w' : World) :
  saveToDatabase fname tname sha env w = (None, w') ->
  exists data wd ht,
    image_dir w !! fname = Some data /\
    image_DecodeConfig data = Some (wd, ht) /\
    has_digest sha (images w) = false /\
    image_dir w' = image_dir w /\ thumb_dir w' = thumb_dir w /\
    images w' = images w ++ [new_row fname tname wd ht sha env w] /\
    images_id_seq w' = images_id_seq w + 1 /\
    trace w' = trace w ++ [FsOpen uploadDir fname; DbExec sha].
Proof.
  unfold saveToDatabase, db_insert. cbn zeta.
  destruct (reopen_err env); [discriminate|].
  change (image_dir (log (FsOpen uploadDir fname) w)) with (image_dir w).
  destruct (image_dir w !! fname) as [data|] eqn:Hdata; [|discriminate].
  destruct (image_DecodeConfig data) as [[wd ht]|] eqn:Hcfg; [|discriminate].
  destruct (exec_err env); [discriminate|].
  change (images (log _ (log _ w))) with (images w).
  destruct (has_digest sha (images w)) eqn:Hd; [discriminate|].
  intros [= <-]. exists data, wd, ht. cbn. rewrite <- app_assoc. done.
Qed.

(** A failed insert leaves storage and table as they were; in
    particular an insert of a digest the table already holds fails. *)
Lemma saveToDatabase_err `{ImageCodec} (fname tname sha : string) (env : Env) (w w' : World)
    (e : string) :
  saveToDatabase fname tname sha env w = (Some e, w') ->
  image_dir w' = image_dir w /\ thumb_dir w' = thumb_dir w /\ images w' = images w.
Proof.
  unfold saveToDatabase, db_insert. cbn zeta.
  destruct (reopen_err env); [by intros [= <- <-]|].
  change (image_dir (log (FsOpen uploadDir fname) w)) with (image_dir w).
  destruct (image_dir w !! fname) as [data|]; [|by intros [= <- <-]].
  destruct (image_DecodeConfig data) as [[wd ht]|]; [|by intros [= <- <-]].
  destruct (exec_err env); [by intros [= <- <-]|].
  destruct (has_digest sha _); [by intros [= <- <-]|discriminate].
Qed.


(** The store phase, stage by stage. *)
Lemma processFile_store_eq `{ImageCodec} (file : FileHeader) (env : Env) (sha : string)
    (w : World) :
  run (processFile_store file env sha) w =
  let fname := String.append sha (Ext (Filename file)) in
  match saveFile (content file) fname env (log UploadSeek w) with
  | (Some _, w1) =>
      ((failure "Failed to save file", StatusInternalServerError), log UploadClose w1)
  | (None, w1) =>
      match generateThumbnail fname env w1 with
      | ((_, Some _), w2) =>
          ((failure "Failed to generate thumbnail", StatusInternalServerError),
           log UploadClose w2)
      | ((tname, None), w2) =>
          match saveToDatabase fname tname sha env w2 with
          | (Some _, w3) =>
              ((failure "Failed to save to database", StatusInternalServerError),
               log UploadClose w3)
          | (None, w3) =>
              ((<[ "sha256sum" := sha ]> {[ "message" := "File uploaded successfully" ]},
                StatusOK), log UploadClose w3)
          end
      end
  end.
Proof.
  unfold run, processFile_store, closing, bind, emit, lift, return_, ret, failure. cbn zeta.
  destruct (saveFile _ _ _ _) as [[e|] w1]; [reflexivity|].
  destruct (generateThumbnail _ _ _) as [[tname [e|]] w2]; [reflexivity|]. cbn [fst snd].
  destruct (saveToDatabase _ _ _ _ _) as [[e|] w3]; reflexivity.
Qed.

Lemma processFile_eq `{ImageCodec} (file : FileHeader) (env : Env) (w : World) :
  processFile file env w =
  match processFile_check file env w with
  | (Return h c, w') => ((h, c), w')
  | (Continue sha, w') => run (processFile_store file env sha) w'
  end.
Proof.
  unfold processFile, run, bind.
  destruct (processFile_check file env w) as [[sha|h c] w']; reflexivity.
Qed.




Lemma accepted_true (data : list byte) :
  accepted data = true <->
  sniff.DetectContentType (read_buff data) = "image/jpeg" \/
  sniff.DetectContentType (read_buff data) = "image/png".
Proof.
  unfold accepted. cbn zeta. rewrite orb_true_iff, !String.eqb_eq. done.
Qed.

Lemma accepted_false (data : list byte) :
  accepted data = false <->
  sniff.DetectContentType (read_buff data) <> "image/jpeg" /\
  sniff.DetectContentType (read_buff data) <> "image/png".
Proof.
  unfold accepted. cbn zeta. rewrite orb_false_iff, !String.eqb_neq. done.
Qed.

Ltac status_clash :=
  unfold StatusOK, StatusBadRequest, StatusConflict, StatusInternalServerError in *;
  first [ discriminate | congruence ].


(** A digest the table holds is caught by the duplicate check. *)
Lemma processFile_duplicate `{ImageCodec} (file : FileHeader) (env : Env) (w : World) :
  Size file <= maxUploadSize ->
  open_err env = None -> read_err env = false -> hash_err env = false ->
  query_err env = false ->
  content file <> [] -> accepted (content file) = true ->
  has_digest (sha256_hex (content file)) (images w) = true ->
  processFile file env w =
    ((failure "File already exists", StatusConflict),
     log UploadClose (log (DbQuery (sha256_hex (content file)))
       (log UploadCopy (log UploadSeek (log UploadRead (log UploadOpen w)))))).
Proof.
  intros Hsize Hopen Hread Hhash Hquery Hne Hacc Hdup.
  rewrite processFile_eq, processFile_check_eq. cbn zeta.
  destruct (Size file >? maxUploadSize) eqn:E; [lia|].
  rewrite Hopen, Hread, Hhash, Hquery, Hacc, Hdup.
  destruct (content file); [done|]. reflexivity.
Qed.


Lemma saveFile_frame (data : list byte) (fname : string) (env : Env) (w w' : World) (r : error) :
  saveFile data fname env w = (r, w') ->
  thumb_dir w' = thumb_dir w /\ images w' = images w /\ images_id_seq w' = images_id_seq w.
Proof.
  unfold saveFile. cbn zeta.
  destruct (create_err env); [by intros [= <- <-]|].
  destruct (write_err env); by intros [= <- <-].
Qed.

Lemma saveFile_ok (data : list byte) (fname : string) (env : Env) (w w' : World) :
  saveFile data fname env w = (None, w') ->
  w' = write_image fname data (log UploadCopy (log (FsCreate uploadDir fname) w)).
Proof.
  unfold saveFile. cbn zeta.
  destruct (create_err env); [discriminate|].
  destruct (write_err env); [discriminate|]. by intros [= <-].
Qed.

(** Every result of [processFile] is a success object with status 200
    or an error object with status 400, 409 or 500. *)
Lemma processFile_response `{ImageCodec} (file : FileHeader) (env : Env) (w : World) :
  let r := fst (processFile file env w) in
  (snd r = StatusOK /\
   fst r = <[ "sha256sum" := sha256_hex (content file) ]>
             {[ "message" := "File uploaded successfully" ]}) \/
  ((snd r = StatusBadRequest \/ snd r = StatusConflict \/ snd r = StatusInternalServerError) /\
   exists msg, fst r = failure msg).
Proof.
  rewrite processFile_eq, processFile_check_eq. cbn zeta.
  destruct (Size file >? maxUploadSize); [right; split; eauto|].
  destruct (open_err env); [right; split; eauto|].
  destruct (read_err env || _); [right; split; eauto|].
  destruct (negb (accepted _)); [right; split; eauto|].
  destruct (hash_err env); [right; split; eauto|].
  destruct (query_err env); [right; split; eauto|].
  destruct (has_digest _ _); [right; split; eauto|].
  rewrite processFile_store_eq. cbn zeta.
  destruct (saveFile _ _ _ _) as [[e|] w1]; [right; split; eauto|].
  destruct (generateThumbnail _ _ _) as [[t [e|]] w2]; [right; split; eauto|].
  destruct (saveToDatabase _ _ _ _ _) as [[e|] w3]; [right; split; eauto|].
  left. done.
Qed.

Lemma status_at_cons `{ImageCodec} (file : FileHeader) (rest : list FileHeader) (i : nat)
    (envs : nat -> Env) (w : World) (k : nat) :
  status_at (file :: rest) i envs w (S k) =
  status_at rest (S i) envs (snd (processFile file (envs i) w)) k.
Proof.
  unfold status_at, result_at. cbn [lookup list_lookup take after_all].
  by rewrite Nat.add_succ_r.
Qed.

Lemma status_at_head `{ImageCodec} (file : FileHeader) (rest : list FileHeader) (i : nat)
    (envs : nat -> Env) (w : World) :
  status_at (file :: rest) i envs w 0 = snd (fst (processFile file (envs i) w)).
Proof.
  unfold status_at, result_at. cbn [lookup list_lookup take after_all].
  by rewrite Nat.add_0_r.
Qed.

(** The loop either runs through, every file succeeding, or stops at
    the first file that does not. *)
Lemma upload_loop_cases `{ImageCodec} (files : list FileHeader) (i : nat) (envs : nat -> Env)
    (rs : list gin_H) (w : World) :
  ((forall k, (k < length files)%nat -> status_at files i envs w k = StatusOK) /\
   upload_loop files i envs rs w =
     ({| status := StatusOK; body := JSONArray (rs ++ responses files i envs w) |},
      after_all files i envs w)) \/
  (exists k, (k < length files)%nat /\
     (forall j, (j < k)%nat -> status_at files i envs w j = StatusOK) /\
     status_at files i envs w k <> StatusOK /\
     upload_loop files i envs rs w =
       ({| status := status_at files i envs w k;
           body := JSONArray (rs ++ responses (take (S k) files) i envs w) |},
        after_all (take (S k) files) i envs w)).
Proof.
  revert i rs w. induction files as [|file rest IH]; intros i rs w.
  { left. split; [cbn; lia|]. cbn. by rewrite app_nil_r. }
  cbn [upload_loop].
  destruct (processFile file (envs i) w) as [[h c] w1] eqn:Hrun.
  destruct (c =? StatusOK) eqn:Hc; cbn [negb].
  - apply Z.eqb_eq in Hc as ->.
    destruct (IH (S i) (rs ++ [<[ "filename" := Filename file ]> h]) w1)
      as [[Hall Hloop]|(k & Hk & Hbefore & Hfail & Hloop)].
    + left. split.
      * intros [|k] Hk; [by rewrite status_at_head, Hrun|].
        rewrite status_at_cons, Hrun. apply Hall. cbn in Hk. lia.
      * rewrite Hloop. cbn [responses after_all]. rewrite Hrun. cbn [fst snd].
        by rewrite <- app_assoc.
    + right. exists (S k). split; [cbn; lia|]. split; [|split].
      * intros [|j] Hj; [by rewrite status_at_head, Hrun|].
        rewrite status_at_cons, Hrun. apply Hbefore. lia.
      * by rewrite status_at_cons, Hrun.
      * rewrite Hloop, status_at_cons. cbn [take responses after_all]. rewrite Hrun.
        cbn [fst snd]. by rewrite <- app_assoc.
  - apply Z.eqb_neq in Hc. right. exists 0%nat. split; [cbn; lia|]. split; [lia|].
    rewrite status_at_head, Hrun. split; [done|].
    cbn [take responses after_all]. rewrite Hrun. done.
Qed.


Lemma responses_length `{ImageCodec} (files : list FileHeader) (i : nat) (envs : nat -> Env)
    (w : World) :
  length (responses files i envs w) = length files.
Proof.
  revert i w. induction files as [|file rest IH]; intros i w; [reflexivity|].
  cbn. by rewrite IH.
Qed.

Lemma responses_lookup `{ImageCodec} (files : list FileHeader) (i : nat) (envs : nat -> Env)
    (w : World) (k : nat) (h : gin_H) :
  responses files i envs w !! k = Some h ->
  exists file r,
    files !! k = Some file /\ result_at files i envs w k = Some r /\
    h = <[ "filename" := Filename file ]> (fst r).
Proof.
  revert i w k. induction files as [|file rest IH]; intros i w k Hk; [done|].
  destruct k as [|k].
  - cbn in Hk. injection Hk as <-. exists file, (fst (processFile file (envs i) w)).
    unfold result_at. cbn [lookup list_lookup take after_all]. by rewrite Nat.add_0_r.
  - cbn [responses] in Hk. cbn in Hk. apply IH in Hk as (f & r & Hf & Hr & ->).
    exists f, r. split; [done|]. split; [|done].
    unfold result_at in *. cbn [lookup list_lookup take after_all].
    by rewrite Nat.add_succ_r.
Qed.

Lemma result_at_take `{ImageCodec} (files : list FileHeader) (i : nat) (envs : nat -> Env)
    (w : World) (n k : nat) :
  (k < n)%nat -> result_at (take n files) i envs w k = result_at files i envs w k.
Proof.
  intros Hk. unfold result_at.
  rewrite lookup_take_lt by done. rewrite take_take. by replace (k `min` n)%nat with k by lia.
Qed.

Lemma tagged_object `{ImageCodec} (file : FileHeader) (env : Env) (w : World) :
  let r := fst (processFile file env w) in
  let h := <[ "filename" := Filename file ]> (fst r) in
  h !! "filename" = Some (Filename file) /\
  ((snd r = StatusOK /\ success_object h) \/ (snd r <> StatusOK /\ failure_object h)).
Proof.
  intros r h. subst h. split; [apply lookup_insert_eq|].
  destruct (processFile_response file env w) as [[Hc Hh]|[Hc [msg Hh]]]; fold r in Hc, Hh.
  - left. split; [done|]. rewrite Hh. unfold success_object. by simplify_map_eq.
  - right. split; [destruct Hc as [Hc | [Hc | Hc]]; rewrite Hc; done|].
    rewrite Hh. unfold failure_object, failure. by simplify_map_eq.
Qed.


(** ** The recent-uploads query *)

Lemma insert_by_date_perm (r : Row) (rows : list Row) :
  Permutation (insert_by_date r rows) (r :: rows).
Proof.
  induction rows as [|r' rows IH]; [reflexivity|].
  cbn. destruct (upload_date r' <=? upload_date r); [reflexivity|].
  rewrite IH. apply perm_swap.
Qed.

Lemma insert_by_date_sorted (r : Row) (rows : list Row) :
  StronglySorted newer_first rows -> StronglySorted newer_first (insert_by_date r rows).
Proof.
  induction rows as [|r' rows IH]; intros Hs.
  - cbn. repeat constructor.
  - apply StronglySorted_inv in Hs as [Hs Hall]. cbn.
    destruct (upload_date r' <=? upload_date r) eqn:Hle.
    + apply Z.leb_le in Hle. constructor; [by constructor|].
      constructor; [done|].
      eapply Forall_impl; [exact Hall|]. unfold newer_first. cbn. intros x Hx. lia.
    + apply Z.leb_gt in Hle. constructor; [by apply IH|].
      rewrite (insert_by_date_perm r rows). constructor; [unfold newer_first; lia|done].
Qed.

Lemma stable_order_contract : orders_by_upload_date_desc stable_order.
Proof.
  intros rows. unfold stable_order. induction rows as [|r rows [IHp IHs]].
  - split; [reflexivity|constructor].
  - cbn. split.
    + rewrite insert_by_date_perm. by constructor.
    + by apply insert_by_date_sorted.
Qed.

Lemma StronglySorted_firstn {A} (R : A -> A -> Prop) (n : nat) (l : list A) :
  StronglySorted R l -> StronglySorted R (firstn n l).
Proof.
  revert n. induction l as [|a l IH]; intros n Hs; [by rewrite firstn_nil|].
  destruct n as [|n]; [constructor|].
  apply StronglySorted_inv in Hs as [Hs Hall]. cbn.
  constructor; [by apply IH|by apply Forall_take].
Qed.

Lemma StronglySorted_map_scan (rows : list Row) :
  StronglySorted newer_first rows ->
  StronglySorted (fun a b => ImageInfo.UploadDate b <= ImageInfo.UploadDate a) (map scan rows).
Proof.
  induction 1 as [|r rows Hs IH Hall]; cbn [map]; constructor; [done|].
  apply List.Forall_map. exact Hall.
Qed.


(** The gallery shows at most 100 records, newest first. *)
Lemma viewHandler_at_most_100 (order : list Row -> list Row) (qenv : QueryEnv) (w : World) :
  orders_by_upload_date_desc order ->
  let r := viewHandler order qenv w in
  (length (snd r) <= 100)%nat /\
  StronglySorted (fun a b => ImageInfo.UploadDate b <= ImageInfo.UploadDate a) (snd r) /\
  (fst r = StatusOK \/ fst r = StatusInternalServerError /\ snd r = []).
Proof.
  intros Horder r. subst r. unfold viewHandler, getRecentImages. cbn zeta.
  destruct (Horder (images w)) as [_ Hsorted].
  assert (Hlen : (length (map scan (firstn (Z.to_nat 100) (order (images w)))) <= 100)%nat).
  { rewrite length_map, length_firstn. lia. }
  assert (Hs : StronglySorted (fun a b => ImageInfo.UploadDate b <= ImageInfo.UploadDate a)
                 (map scan (firstn (Z.to_nat 100) (order (images w))))).
  { by apply StronglySorted_map_scan, StronglySorted_firstn. }
  destruct (rows_query_err qenv); cbn [orb fst snd length].
  { split; [lia|]. split; [constructor|by right]. }
  change (100 <? 0) with false. cbn [fst snd].
  destruct (rows_scan_err qenv) as [i|].
  - destruct (Nat.ltb i _); cbn [fst snd length].
    { split; [lia|]. split; [constructor|by right]. }
    destruct (rows_err qenv); cbn [fst snd length].
    { split; [lia|]. split; [constructor|by right]. }
    split; [done|]. split; [done|by left].
  - destruct (rows_err qenv); cbn [fst snd length].
    { split; [lia|]. split; [constructor|by right]. }
    split; [done|]. split; [done|by left].
Qed.

(** ** What the sniffer accepts *)

Module sniff_facts.
Import sniff.



Lemma mp4_loop_ct (fuel : nat) (st boxSize : N) (data : list byte) :
  mp4_loop fuel st boxSize data = "" \/ mp4_loop fuel st boxSize data = "video/mp4".
Proof.
  revert st. induction fuel as [|fuel IH]; intros st; [by left|].
  cbn [mp4_loop]. destruct (N.leb boxSize st); [by left|].
  destruct (N.eqb st 12); [apply IH|].
  destruct (bytes_eqb _ _); [by right|apply IH].
Qed.

Lemma sig_match_ct (sig : sniffSig) (data : list byte) (n : nat) :
  sig_match sig data n = "" \/ sig_match sig data n = sig_ct sig.
Proof.
  destruct sig as [h|mask pat skipWS ct|s ct| |]; cbn [sig_match sig_ct].
  - unfold match_html. cbn zeta. destruct (Nat.ltb _ _); [by left|].
    destruct (negb _); [by left|]. destruct (nth_error _ _) as [t|]; [|by left].
    destruct (isTT t); [by right|by left].
  - unfold match_masked. cbn zeta. destruct (negb _); [by left|].
    destruct (Nat.ltb _ _); [by left|]. destruct (masked_eq _ _ _); [by right|by left].
  - unfold match_exact. destruct (HasPrefix _ _); [by right|by left].
  - unfold match_mp4. destruct (Nat.ltb _ _); [by left|]. cbn zeta.
    destruct (_ || _); [by left|]. destruct (negb _); [by left|]. apply mp4_loop_ct.
  - unfold match_text. destruct (existsb _ _); [by left|by right].
Qed.

(** The outcome of the table is the fallback or the type of the first
    signature that matches. *)
Lemma first_match_split (sigs : list sniffSig) (data : list byte) (n : nat) :
  (first_match sigs data n = "application/octet-stream" /\
   Forall (fun sig => sig_match sig data n = "") sigs) \/
  exists before sig after,
    sigs = before ++ sig :: after /\
    Forall (fun sig' => sig_match sig' data n = "") before /\
    sig_match sig data n = sig_ct sig /\ sig_ct sig <> "" /\
    first_match sigs data n = sig_ct sig.
Proof.
  induction sigs as [|sig sigs IH]; [by left|].
  cbn [first_match]. cbn zeta.
  destruct (String.eqb (sig_match sig data n) "") eqn:Hm.
  - apply String.eqb_eq in Hm.
    destruct IH as [[Hf Hall]|(before & sig' & after & -> & Hall & Hsig & Hne & Hf)].
    + left. split; [done|]. by constructor.
    + right. exists (sig :: before), sig', after. repeat split; try done. by constructor.
  - apply String.eqb_neq in Hm. right. exists [], sig, sigs.
    destruct (sig_match_ct sig data n) as [Hempty|Hct]; [done|].
    repeat split; try done. by rewrite <- Hct.
Qed.

Lemma first_match_app (l1 l2 : list sniffSig) (data : list byte) (n : nat) :
  Forall (fun sig => sig_match sig data n = "") l1 ->
  first_match (l1 ++ l2) data n = first_match l2 data n.
Proof.
  induction 1 as [|sig l1 Hsig Hall IH]; [reflexivity|].
  cbn [app first_match]. cbn zeta. by rewrite Hsig, IH.
Qed.



Lemma sniffSignatures_split :
  sniffSignatures = sigs_before ++ png_sig :: jpeg_sig :: sigs_after.
Proof. reflexivity. Qed.

Ltac no_match :=
  cbn [sig_match]; unfold match_html, match_masked, match_exact;
  cbn [skipn length HasPrefix masked_eq html_eq bytes list_byte_of_string
       String.list_byte_of_string map list_ascii_of_string bN Byte.to_N
       byte_of_ascii Ascii.byte_of_ascii];
  repeat match goal with
         | |- context [Nat.ltb ?a ?b] => destruct (Nat.ltb a b)
         end;
  try reflexivity.

Lemma before_jpeg (rest : list byte) :
  Forall (fun sig => sig_match sig (xff :: xd8 :: xff :: rest) 0 = "") (sigs_before ++ [png_sig]).
Proof.
  unfold sigs_before, sniffSignatures, png_sig, png_magic. cbn [firstn app].
  repeat constructor; no_match.
Qed.

Lemma before_png (rest : list byte) :
  Forall (fun sig => sig_match sig (png_magic ++ rest) 0 = "") sigs_before.
Proof.
  unfold sigs_before, sniffSignatures, png_magic. cbn [firstn app].
  repeat constructor; no_match.
Qed.

Lemma bN_inj (a b : byte) : bN a = bN b -> a = b.
Proof.
  unfold bN. intros Heq. apply (f_equal Byte.of_N) in Heq.
  rewrite !Byte.of_to_N in Heq. by injection Heq.
Qed.

Lemma HasPrefix_app (data prefix : list byte) :
  HasPrefix data prefix = true <-> exists rest, data = prefix ++ rest.
Proof.
  revert data. induction prefix as [|p prefix IH]; intros data.
  - split; [by exists data|done].
  - destruct data as [|d data]; cbn [HasPrefix].
    + split; [done|by intros [rest ?]].
    + rewrite andb_true_iff, N.eqb_eq, IH. split.
      * intros [Hb [rest ->]]. apply bN_inj in Hb as ->. by exists rest.
      * intros [rest [= -> ->]]. split; [done|by exists rest].
Qed.

Lemma sig_ct_image (sig : sniffSig) (ct : string) :
  In sig sniffSignatures -> sig_ct sig = ct -> ct = "image/jpeg" \/ ct = "image/png" ->
  sig = jpeg_sig \/ sig = png_sig.
Proof.
  unfold sniffSignatures. cbn [In].
  intros Hin Hct Himg.
  repeat (destruct Hin as [<-|Hin];
          [cbn [sig_ct] in Hct; subst ct;
           first [ by left | by right | by destruct Himg ] |]).
  done.
Qed.

(** The sniffer answers image/jpeg exactly for data that starts FF D8 FF
    and image/png exactly for data that starts with the PNG signature. *)
Lemma DetectContentType_jpeg (data : list byte) :
  DetectContentType data = "image/jpeg" <-> HasPrefix (firstn sniffLen data) jpeg_magic = true.
Proof.
  unfold DetectContentType. cbn zeta. generalize (firstn sniffLen data). clear data.
  intros data. split.
  - intros Hct.
    destruct (first_match_split sniffSignatures data (countWS data))
      as [[Hf _]|(before & sig & after & Hsplit & _ & Hsig & _ & Hf)].
    { rewrite Hf in Hct. discriminate. }
    rewrite Hf in Hct.
    assert (Hin : In sig sniffSignatures) by (rewrite Hsplit; apply in_elt).
    destruct (sig_ct_image sig _ Hin Hct) as [->| ->]; [by left| |discriminate].
    cbn [sig_match jpeg_sig] in Hsig. unfold match_exact in Hsig.
    by destruct (HasPrefix data jpeg_magic).
  - intros [rest ->]%HasPrefix_app. cbn [jpeg_magic app countWS isWS].
    rewrite sniffSignatures_split.
    change (sigs_before ++ png_sig :: jpeg_sig :: sigs_after)
      with (sigs_before ++ [png_sig] ++ jpeg_sig :: sigs_after).
    rewrite app_assoc, first_match_app by apply before_jpeg. reflexivity.
Qed.

Lemma DetectContentType_png (data : list byte) :
  DetectContentType data = "image/png" <-> HasPrefix (firstn sniffLen data) png_magic = true.
Proof.
  unfold DetectContentType. cbn zeta. generalize (firstn sniffLen data). clear data.
  intros data. split.
  - intros Hct.
    destruct (first_match_split sniffSignatures data (countWS data))
      as [[Hf _]|(before & sig & after & Hsplit & _ & Hsig & _ & Hf)].
    { rewrite Hf in Hct. discriminate. }
    rewrite Hf in Hct.
    assert (Hin : In sig sniffSignatures) by (rewrite Hsplit; apply in_elt).
    destruct (sig_ct_image sig _ Hin Hct) as [->| ->]; [by right|discriminate|].
    cbn [sig_match png_sig] in Hsig. unfold match_exact in Hsig.
    by destruct (HasPrefix data png_magic).
  - intros [rest ->]%HasPrefix_app.
    replace (countWS (png_magic ++ rest)) with 0%nat by reflexivity.
    rewrite sniffSignatures_split, first_match_app by apply before_png. reflexivity.
Qed.

Lemma read_buff_length (data : list byte) : length (read_buff data) = 512%nat.
Proof.
  unfold read_buff. rewrite length_app, repeat_length, length_firstn. lia.
Qed.

Lemma HasPrefix_padded (data m : list byte) (n k : nat) :
  (length m <= n)%nat -> Forall (fun b => b <> x00) m ->
  HasPrefix (firstn n data ++ repeat x00 k) m = HasPrefix data m.
Proof.
  revert data n. induction m as [|p m IH]; intros data n Hlen Hnz; [reflexivity|].
  apply Forall_cons in Hnz as [Hp Hnz].
  destruct n as [|n]; [cbn in Hlen; lia|].
  destruct data as [|d data].
  - cbn [firstn app HasPrefix]. destruct k as [|k]; [reflexivity|].
    cbn [repeat HasPrefix]. destruct (N.eqb (bN p) (bN x00)) eqn:Heq; [|reflexivity].
    apply N.eqb_eq, bN_inj in Heq. done.
  - cbn [firstn app HasPrefix]. rewrite IH; [reflexivity|cbn in Hlen; lia|done].
Qed.

(** An upload passes the test of lines 148-149 exactly when its bytes
    start with the JPEG marker FF D8 FF or with the PNG signature. *)
Lemma accepted_iff_magic (data : list byte) :
  accepted data = true <->
  HasPrefix data jpeg_magic = true \/ HasPrefix data png_magic = true.
Proof.
  rewrite accepted_true, DetectContentType_jpeg, DetectContentType_png.
  rewrite firstn_all2 by (rewrite read_buff_length; reflexivity).
  unfold read_buff.
  rewrite !HasPrefix_padded; [done| | | |].
  - cbn. lia.
  - unfold png_magic. repeat constructor; discriminate.
  - cbn. lia.
  - unfold jpeg_magic. repeat constructor; discriminate.
Qed.

End sniff_facts.

(** ** Uniqueness of digests in the table *)


Lemma has_digest_false (sha : string) (rows : list Row) :
  has_digest sha rows = false -> ~ In sha (map sha256sum rows).
Proof.
  unfold has_digest. induction rows as [|r rows IH]; [by intros _ []|].
  cbn [existsb map In]. intros [Hr Hrows]%orb_false_iff [Heq|Hin].
  - apply String.eqb_neq in Hr. done.
  - by apply IH.
Qed.

(** Whatever the interleaving, the store phase keeps the digests of the
    table distinct: the constraint decides. *)
Lemma processFile_store_unique `{ImageCodec} (file : FileHeader) (env : Env) (sha : string)
    (w : World) :
  unique_digests w -> unique_digests (snd (run (processFile_store file env sha) w)).
Proof.
  unfold unique_digests. intros Hu. rewrite processFile_store_eq. cbn zeta.
  destruct (saveFile _ _ _ _) as [[e|] w1] eqn:Hsave;
    pose proof Hsave as (_ & Hw1 & _)%saveFile_frame; cbn [images log] in Hw1.
  { cbn [snd images log]. by rewrite Hw1. }
  destruct (generateThumbnail _ _ _) as [[t [e|]] w2] eqn:Hthumb;
    pose proof Hthumb as (_ & Hw2 & _)%generateThumbnail_frame.
  { cbn [snd images log]. by rewrite Hw2, Hw1. }
  destruct (saveToDatabase _ _ _ _ _) as [[e|] w3] eqn:Hdb.
  - apply saveToDatabase_err in Hdb as (_ & _ & Hw3).
    cbn [snd images log]. by rewrite Hw3, Hw2, Hw1.
  - apply saveToDatabase_ok in Hdb as (data & wd & ht & _ & _ & Hfresh & _ & _ & Hw3 & _).
    cbn [snd images log]. rewrite Hw3, map_app. cbn [map new_row sha256sum].
    rewrite Hw2, Hw1 in *. apply NoDup_app. split; [done|]. split.
    + intros x Hx [->|[]]%list_elem_of_In. apply (has_digest_false _ _ Hfresh).
      by apply list_elem_of_In.
    + apply NoDup_singleton.
Qed.

(** The check phase only reads: storage, table and sequence stay. *)
Lemma processFile_check_same_stores (file : FileHeader) (env : Env) (w w' : World)
    (o : Outcome string) :
  processFile_check file env w = (o, w') -> same_stores w w'.
Proof.
  rewrite processFile_check_eq. cbn zeta.
  destruct (Size file >? maxUploadSize); [by intros [= <- <-]|].
  destruct (open_err env); [by intros [= <- <-]|].
  destruct (read_err env || _); [by intros [= <- <-]|].
  destruct (negb (accepted _)); [by intros [= <- <-]|].
  destruct (hash_err env); [by intros [= <- <-]|].
  destruct (query_err env); [by intros [= <- <-]|].
  destruct (has_digest _ _); by intros [= <- <-].
Qed.

Lemma processFile_unique `{ImageCodec} (file : FileHeader) (env : Env) (w : World) :
  unique_digests w -> unique_digests (snd (processFile file env w)).
Proof.
  intros Hu. rewrite processFile_eq.
  destruct (processFile_check file env w) as [[sha|h c] w'] eqn:Hcheck.
  - apply processFile_check_same_stores in Hcheck as (_ & _ & Hi & _).
    apply processFile_store_unique. unfold unique_digests. by rewrite Hi.
  - apply processFile_check_same_stores in Hcheck as (_ & _ & Hi & _).
    cbn [snd]. unfold unique_digests. by rewrite Hi.
Qed.

(** ** The duplicate check *)

(** The digest the check phase hands on is that of the bytes, and the
    table did not hold it. *)
Lemma processFile_check_digest (file : FileHeader) (env : Env) (w w' : World) (sha : string) :
  processFile_check file env w = (Continue sha, w') ->
  sha = sha256_hex (content file) /\ has_digest sha (images w) = false /\
  accepted (content file) = true /\ Size file <= maxUploadSize.
Proof.
  rewrite processFile_check_eq. cbn zeta.
  destruct (Size file >? maxUploadSize) eqn:Hsize; [discriminate|].
  destruct (open_err env); [discriminate|].
  destruct (read_err env || _); [discriminate|].
  destruct (accepted _); cbn [negb]; [|discriminate].
  destruct (hash_err env); [discriminate|].
  destruct (query_err env); [discriminate|].
  destruct (has_digest _ _) eqn:Hd; [discriminate|].
  intros [= <- <-]. repeat split; try done. lia.
Qed.

(** Status 409 is the answer of the duplicate check and of nothing else. *)
Lemma processFile_conflict_iff `{ImageCodec} (file : FileHeader) (env : Env) (w : World) :
  snd (fst (processFile file env w)) = StatusConflict <->
  Size file <= maxUploadSize /\ open_err env = None /\ read_err env = false /\
  content file <> [] /\ accepted (content file) = true /\ hash_err env = false /\
  query_err env = false /\ has_digest (sha256_hex (content file)) (images w) = true.
Proof.
  split.
  - rewrite processFile_eq, processFile_check_eq. cbn zeta.
    destruct (Size file >? maxUploadSize) eqn:Hsize; [intros; status_clash|].
    destruct (open_err env); [intros; status_clash|].
    destruct (read_err env) eqn:Hread; [intros; status_clash|]. cbn [orb].
    destruct (Nat.eqb _ _) eqn:Hlen; [intros; status_clash|].
    destruct (accepted _); cbn [negb]; [|intros; status_clash].
    destruct (hash_err env); [intros; status_clash|].
    destruct (query_err env); [intros; status_clash|].
    destruct (has_digest _ _) eqn:Hd.
    + intros _. repeat split; try done; [lia|].
      intros Hnil. by rewrite Hnil in Hlen.
    + rewrite processFile_store_eq. cbn zeta.
      destruct (saveFile _ _ _ _) as [[e|] w1]; [intros; status_clash|].
      destruct (generateThumbnail _ _ _) as [[t [e|]] w2]; [intros; status_clash|].
      destruct (saveToDatabase _ _ _ _ _) as [[e|] w3]; intros; status_clash.
  - intros (Hsize & Hopen & Hread & Hne & Hacc & Hhash & Hquery & Hdup).
    by rewrite processFile_duplicate.
Qed.

(** * The claims *)






(** C3: the files of a request are processed one at a time in the order
    presented, each in the world the previous ones left; the status is
    200 exactly when every file succeeds; otherwise it is the status of
    the first file that does not succeed, and the world is the one that
    file left: no later file is processed. *)
Theorem upload_fail_fast `{ImageCodec} (form_File : gmap string (list FileHeader))
    (envs : nat -> Env) (w : World) :
  let files := default [] (form_File !! "file") in
  let r := uploadHandler (inr form_File) envs w in
  (status (fst r) = StatusOK <->
   forall k, (k < length files)%nat -> status_at files 0 envs w k = StatusOK) /\
  ((forall k, (k < length files)%nat -> status_at files 0 envs w k = StatusOK) ->
   snd r = after_all files 0 envs w) /\
  (forall k, (k < length files)%nat ->
     (forall j, (j < k)%nat -> status_at files 0 envs w j = StatusOK) ->
     status_at files 0 envs w k <> StatusOK ->
     status (fst r) = status_at files 0 envs w k /\
     snd r = after_all (take (S k) files) 0 envs w).
Proof.
  intros files r. subst r. unfold uploadHandler. fold files.
  destruct (upload_loop_cases files 0 envs [] w)
    as [[Hall Hloop]|(k & Hk & Hbefore & Hfail & Hloop)]; rewrite Hloop; cbn [fst snd status].
  - split; [done|]. split; [done|].
    intros k Hk _ Hfail. by specialize (Hall k Hk).
  - assert (Hfirst : forall k', (k' < length files)%nat ->
              (forall j, (j < k')%nat -> status_at files 0 envs w j = StatusOK) ->
              status_at files 0 envs w k' <> StatusOK -> k' = k).
    { intros k' Hk' Hbefore' Hfail'.
      destruct (Nat.lt_trichotomy k' k) as [Hlt|[Heq|Hgt]]; [|done|].
      - by specialize (Hbefore k' Hlt).
      - by specialize (Hbefore' k Hgt). }
    split; [|split].
    + split; [done|]. intros Hall. by specialize (Hall k Hk).
    + intros Hall. by specialize (Hall k Hk).
    + intros k' Hk' Hbefore' Hfail'.
      by rewrite (Hfirst k' Hk' Hbefore' Hfail').
Qed.

(** C4: an upload that is oversize, or whose sniffed content type is neither
    image/jpeg nor image/png, is answered with status 400 and leaves
    both storage directories, the table and its sequence untouched; for
    an oversize upload the world is unchanged altogether, trace
    included: the size is checked before any operation on the file. *)
Theorem rejected_upload_writes_nothing `{ImageCodec} (file : FileHeader) (env : Env)
    (w : World) :
  Size file > maxUploadSize \/
  (exists t, sniffed file env = Some t /\ t <> "image/jpeg" /\ t <> "image/png") ->
  exists h w',
    processFile file env w = ((h, StatusBadRequest), w') /\
    same_stores w w' /\
    (Size file > maxUploadSize -> h = failure "File too large" /\ w' = w) /\
    (Size file <= maxUploadSize ->
     h = failure "File type not allowed. Only JPG and PNG are allowed." /\
     trace w' = trace w ++ [UploadOpen; UploadRead; UploadClose]).
Proof.
  intros Hrej. rewrite processFile_eq, processFile_check_eq. cbn zeta.
  destruct (Size file >? maxUploadSize) eqn:Hsize.
  - eexists _, _. split; [reflexivity|]. split; [done|]. split; [done|]. lia.
  - destruct Hrej as [Hbig|(t & Ht & Hjpeg & Hpng)]; [lia|].
    unfold sniffed in Ht.
    destruct (open_err env); [discriminate|].
    destruct (read_err env || _); [discriminate|]. injection Ht as <-.
    assert (Hacc : accepted (content file) = false) by by apply accepted_false.
    rewrite Hacc. cbn [negb].
    eexists _, _. split; [reflexivity|]. split; [done|]. split; [lia|].
    intros _. split; [done|]. cbn. by rewrite <- !app_assoc.
Qed.

(** A text file named notes.jpg, and a part one byte over the limit. *)
Lemma rejected_upload_writes_nothing_witness :
  (exists h w',
     @processFile header_codec notes (calm 7) empty_world = ((h, StatusBadRequest), w') /\
     same_stores empty_world w' /\
     (Size notes > maxUploadSize -> h = failure "File too large" /\ w' = empty_world) /\
     (Size notes <= maxUploadSize ->
      h = failure "File type not allowed. Only JPG and PNG are allowed." /\
      trace w' = trace empty_world ++ [UploadOpen; UploadRead; UploadClose])) /\
  (exists h w',
     @processFile header_codec huge (calm 7) after_cat = ((h, StatusBadRequest), w') /\
     same_stores after_cat w' /\
     (Size huge > maxUploadSize -> h = failure "File too large" /\ w' = after_cat) /\
     (Size huge <= maxUploadSize ->
      h = failure "File type not allowed. Only JPG and PNG are allowed." /\
      trace w' = trace after_cat ++ [UploadOpen; UploadRead; UploadClose])).
Proof.
  split.
  - apply (@rejected_upload_writes_nothing header_codec notes (calm 7) empty_world).
    right. exists "application/octet-stream". vm_compute. repeat split; discriminate.
  - apply (@rejected_upload_writes_nothing header_codec huge (calm 7) after_cat).
    left. unfold huge. cbn [Size]. lia.
Defined.









(** C8: (as amended) when the form cannot be parsed the body is one object
    {error}; otherwise it is an array with one object per file
    processed, in request order: every file of the field when the
    status is 200, else the files up to and including the first that
    fails. Each object carries the file's declared name under filename
    and is either a success object {message, sha256sum} or a failure
    object {error}, and a failure object is the last of the array. *)
Theorem response_objects `{ImageCodec} (form_File : gmap string (list FileHeader))
    (envs : nat -> Env) (w : World) :
  let files := default [] (form_File !! "file") in
  let resp := fst (uploadHandler (inr form_File) envs w) in
  (forall err, fst (uploadHandler (inl err) envs w) =
     {| status := StatusBadRequest; body := JSONObject (failure err) |}) /\
  exists l,
    body resp = JSONArray l /\
    (length l <= length files)%nat /\
    (status resp = StatusOK -> length l = length files) /\
    (status resp <> StatusOK -> exists k, length l = S k /\
       status_at files 0 envs w k = status resp) /\
    (forall k h, l !! k = Some h ->
       exists file r,
         files !! k = Some file /\ result_at files 0 envs w k = Some r /\
         h !! "filename" = Some (Filename file) /\
         ((snd r = StatusOK /\ success_object h) \/
          (snd r <> StatusOK /\ failure_object h /\ length l = S k))).
Proof.
  intros files resp. split; [done|]. subst resp. unfold uploadHandler. fold files.
  destruct (upload_loop_cases files 0 envs [] w)
    as [[Hall Hloop]|(n & Hn & Hbefore & Hfail & Hloop)]; rewrite Hloop; cbn [fst body status].
  - eexists. split; [reflexivity|]. cbn [app]. rewrite responses_length.
    split; [done|]. split; [done|]. split; [done|].
    intros k h Hk. pose proof Hk as (file & r & Hfile & Hr & ->)%responses_lookup.
    exists file, r. split; [done|]. split; [done|].
    unfold result_at in Hr. rewrite Hfile in Hr. injection Hr as <-.
    destruct (tagged_object file (envs k) (after_all (take k files) 0 envs w))
      as [Hname [Hok|[Hbad _]]]; [split; [done|by left]|].
    exfalso. apply Hbad. specialize (Hall k (lookup_lt_Some _ _ _ Hfile)).
    unfold status_at, result_at in Hall. by rewrite Hfile in Hall.
  - eexists. split; [reflexivity|]. cbn [app]. rewrite responses_length, length_take.
    split; [lia|]. split; [done|].
    split; [intros _; exists n; split; [lia|done]|].
    intros k h Hk. pose proof Hk as (file & r & Hfile & Hr & ->)%responses_lookup.
    assert (Hkn : (k < S n)%nat).
    { apply lookup_lt_Some in Hfile. rewrite length_take in Hfile. lia. }
    rewrite result_at_take in Hr by done. rewrite lookup_take_lt in Hfile by done.
    exists file, r. split; [done|]. split; [done|].
    unfold result_at in Hr. rewrite Hfile in Hr. injection Hr as <-.
    destruct (tagged_object file (envs k) (after_all (take k files) 0 envs w))
      as [Hname [Hok|[Hbad Hobj]]]; [split; [done|by left]|].
    split; [done|]. right. split; [done|]. split; [done|].
    destruct (decide (k = n)) as [->|Hne]; [lia|].
    exfalso. apply Hbad. assert (Hlt : (k < n)%nat) by lia.
    specialize (Hbefore k Hlt). unfold status_at, result_at in Hbefore.
    by rewrite Hfile in Hbefore.
Qed.

(** The claim as stated fails: a request of two files, the first of them
    a text file, is answered with an array of one object. *)
Lemma batch_stops_at_first_failure :
  let request : gmap string (list FileHeader) := {[ "file" := [notes; cat] ]} in
  let resp := fst (@uploadHandler header_codec (inr request) (fun _ => calm 7) empty_world) in
  status resp = StatusBadRequest /\
  exists l, body resp = JSONArray l /\ length l = 1%nat /\
            length (default [] (request !! "file")) = 2%nat.
Proof.
  cbv zeta. split; [vm_compute; reflexivity|].
  eexists. split; [vm_compute; reflexivity|]. split; vm_compute; reflexivity.
Qed.

(** C9: (as amended) for an engine that honours ORDER BY upload_date DESC,
    a recent-uploads query that succeeds was given a limit n >= 0 and
    returns at most n records, newest first; they are a prefix of the
    whole table ordered newest first. The order among rows of equal
    date is the engine's. *)
Theorem recent_images_newest_first (order : list Row -> list Row) (limit : Z)
    (qenv : QueryEnv) (w : World) :
  orders_by_upload_date_desc order ->
  snd (getRecentImages order limit qenv w) = None ->
  let found := fst (getRecentImages order limit qenv w) in
  0 <= limit /\
  Z.of_nat (length found) <= limit /\
  StronglySorted (fun a b => ImageInfo.UploadDate b <= ImageInfo.UploadDate a) found /\
  exists shown hidden,
    found = map scan shown /\
    Permutation (shown ++ hidden) (images w) /\
    StronglySorted newer_first (shown ++ hidden).
Proof.
  intros Horder Hok found. subst found.
  destruct (getRecentImages order limit qenv w) as [found e] eqn:Hget.
  cbn [fst snd] in *. subst e.
  destruct (Horder (images w)) as [Hperm Hsorted].
  unfold getRecentImages in Hget. cbn zeta in Hget.
  destruct (rows_query_err qenv); [discriminate|]. cbn [orb] in Hget.
  destruct (limit <? 0) eqn:Hlim; [discriminate|]. apply Z.ltb_ge in Hlim.
  assert (Hfound : found = map scan (firstn (Z.to_nat limit) (order (images w)))).
  { destruct (rows_scan_err qenv) as [i|].
    - destruct (Nat.ltb i _); [discriminate|].
      destruct (rows_err qenv); [discriminate|]. by injection Hget as <-.
    - destruct (rows_err qenv); [discriminate|]. by injection Hget as <-. }
  split; [done|]. split; [|split].
  - rewrite Hfound, length_map, length_firstn. lia.
  - rewrite Hfound. by apply StronglySorted_map_scan, StronglySorted_firstn.
  - exists (firstn (Z.to_nat limit) (order (images w))),
           (skipn (Z.to_nat limit) (order (images w))).
    rewrite firstn_skipn. done.
Qed.

(** The newest one of two uploads. *)
Lemma recent_images_newest_first_witness :
  let found := fst (getRecentImages stable_order 1 calm_query after_cat_and_chart) in
  0 <= 1 /\
  Z.of_nat (length found) <= 1 /\
  StronglySorted (fun a b => ImageInfo.UploadDate b <= ImageInfo.UploadDate a) found /\
  exists shown hidden,
    found = map scan shown /\
    Permutation (shown ++ hidden) (images after_cat_and_chart) /\
    StronglySorted newer_first (shown ++ hidden).
Proof.
  apply (recent_images_newest_first stable_order 1 calm_query after_cat_and_chart).
  - exact stable_order_contract.
  - vm_compute. reflexivity.
Defined.

(** The claim as stated fails: an engine that honours the ORDER BY and
    keeps rows of equal date in table order returns ids 1, 2. *)
Lemma equal_dates_come_in_table_order :
  orders_by_upload_date_desc stable_order /\
  map upload_date (images after_cat_and_chart) = [7; 7] /\
  map ImageInfo.UploadDate (fst (getRecentImages stable_order 100 calm_query after_cat_and_chart))
    = [7; 7] /\
  map ImageInfo.ID (fst (getRecentImages stable_order 100 calm_query after_cat_and_chart))
    = [1; 2].
Proof.
  split; [exact stable_order_contract|].
  split; [vm_compute; reflexivity|]. split; vm_compute; reflexivity.
Qed.

(** C10: a zero-byte part is answered with status 500, not 400, and nothing
    is written or recorded; when the stream opens, the message is
    Failed to read file and the file saw one Read between Open and
    Close. *)
Theorem empty_upload_internal_error `{ImageCodec} (file : FileHeader) (env : Env) (w : World) :
  parsed file -> content file = [] ->
  exists h w',
    processFile file env w = ((h, StatusInternalServerError), w') /\
    same_stores w w' /\
    (open_err env = None ->
     h = failure "Failed to read file" /\
     trace w' = trace w ++ [UploadOpen; UploadRead; UploadClose]).
Proof.
  intros Hparsed Hnil. rewrite processFile_eq, processFile_check_eq. cbn zeta.
  unfold parsed in Hparsed. rewrite Hnil in *. cbn in Hparsed.
  destruct (Size file >? maxUploadSize) eqn:Hsize.
  { rewrite Hparsed in Hsize. discriminate. }
  destruct (open_err env) as [e|].
  - eexists _, _. split; [reflexivity|]. split; [done|]. discriminate.
  - rewrite orb_true_r. eexists _, _. split; [reflexivity|]. split; [done|].
    intros _. split; [done|]. cbn. by rewrite <- !app_assoc.
Qed.

(** An empty part named empty.png. *)
Lemma empty_upload_internal_error_witness :
  exists h w',
    @processFile header_codec nothing (calm 7) after_cat =
      ((h, StatusInternalServerError), w') /\
    same_stores after_cat w' /\
    (open_err (calm 7) = None ->
     h = failure "Failed to read file" /\
     trace w' = trace after_cat ++ [UploadOpen; UploadRead; UploadClose]).
Proof.
  apply (@empty_upload_internal_error header_codec nothing (calm 7) after_cat); reflexivity.
Defined.

(** * The scenarios of the specification, run *)

Example second_file_duplicates_first :
  let request : gmap string (list FileHeader) := {[ "file" := [cat; cat_png; chart] ]} in
  let r := @uploadHandler header_codec (inr request) (fun _ => calm 7) empty_world in
  status (fst r) = StatusConflict /\
  map sha256sum (images (snd r)) = [sha256_hex jpeg10] /\
  exists ok dup, body (fst r) = JSONArray [ok; dup] /\
    ok !! "filename" = Some "cat.jpg" /\ dup !! "filename" = Some "cat.png" /\
    dup !! "error" = Some "File already exists".
Proof.
  cbv zeta. split; [vm_compute; reflexivity|]. split; [vm_compute; reflexivity|].
  eexists _, _. split; [vm_compute; reflexivity|].
  split; [vm_compute; reflexivity|]. split; vm_compute; reflexivity.
Qed.

Example ten_by_ten_jpeg :
  let r := @processFile header_codec cat (calm 7) empty_world in
  snd (fst r) = StatusOK /\
  map (fun row => (width row, height row)) (images (snd r)) = [(10, 10)] /\
  fst (fst r) !! "sha256sum" =
    Some "847c2c8ebbdbb614810d5721b4b6c5627db890858fac11d93dbe6d40fac58734".
Proof.
  cbv zeta. split; [vm_compute; reflexivity|]. split; vm_compute; reflexivity.
Qed.
